(** * Workspace actions of the Phala Cloud JavaScript SDK

    A shallow embedding of [listWorkspaces], [safeListWorkspaces],
    [getWorkspace] and [safeGetWorkspace]
    (js/src/actions/workspaces/list_workspaces.ts and the module of the
    get-workspace action beside it),
    together with the pieces of the JavaScript platform and of the zod
    validation library that these four functions touch.

    Conventions of the embedding:
    - a JavaScript string is a [string]: the bytes of its generalized
      UTF-8 form, in which a code point has its UTF-8 bytes and a lone
      surrogate the three bytes ED A0..BF 80..BF;
    - a JavaScript number is a [JsNumber]: a safe integer, NaN, or any
      other number given by the string that [toString] returns for it;
    - an object is the list of its own properties in the order in which
      JavaScript enumerates them;
    - [await] is sequencing in the [Async] monad, whose state carries the
      state of the outside world behind the client and the list of requests
      handed to the client so far;
    - a thrown exception is the [Throw] completion. *)

From Stdlib Require Import List String Ascii ZArith NArith Bool Arith Lia.
From Stdlib Require Import DecimalString Sorted.
Import ListNotations.
Local Open Scope string_scope.
Set Warnings "-register-all".

(* ===================================================================== *)
(** ** JavaScript values *)
(* ===================================================================== *)

(** Numbers. [NumInt z] is the integer [z], for the safe integers
    (at most 2^53 - 1 in magnitude), which [toString] renders in decimal.
    [NumOther s] is any other number but NaN: a fraction, a magnitude
    beyond the safe integers, an infinity; it is given by the string [s]
    that [toString] returns for it, such as ["0.5"], ["1e+21"] or
    ["Infinity"] ([toString] tells these numbers apart). *)
Inductive JsNumber : Type :=
| NumInt (z : Z)
| NumNaN
| NumOther (rendering : string).

Definition isSafeInteger (z : Z) : bool :=
  (Z.abs z <=? 9007199254740991)%Z.

(** [ToBoolean] on numbers and strings. *)
Definition number_truthy (n : JsNumber) : bool :=
  match n with
  | NumInt z => negb (z =? 0)%Z
  | NumNaN => false
  | NumOther _ => true
  end.

Definition string_truthy (s : string) : bool :=
  match s with
  | EmptyString => false
  | String _ _ => true
  end.

(** [Number.prototype.toString()]. *)
Definition number_toString (n : JsNumber) : string :=
  match n with
  | NumInt z => NilZero.string_of_int (Z.to_int z)
  | NumNaN => "NaN"
  | NumOther rendering => rendering
  end.

(** Values received from the HTTP client (decoded JSON). *)
Inductive json : Type :=
| JNull
| JBool (b : bool)
| JNum (n : JsNumber)
| JStr (s : string)
| JArr (items : list json)
| JObj (fields : list (string * json)).

(** [obj[key]]: [None] is [undefined]. *)
Fixpoint getField (key : string) (fields : list (string * json)) : option json :=
  match fields with
  | [] => None
  | (k, v) :: rest => if String.eqb key k then Some v else getField key rest
  end.

(* ===================================================================== *)
(** ** Strings as USVString *)
(* ===================================================================== *)

(** The first two bytes of a lone surrogate: ED, then A0 to BF. *)
Definition isSurrogateLead (a b : ascii) : bool :=
  ((nat_of_ascii a =? 237) && (160 <=? nat_of_ascii b)
   && (nat_of_ascii b <=? 191))%nat.

(** U+FFFD, the bytes EF BF BD. *)
Definition replacementCharacter : string :=
  String (ascii_of_nat 239) (String (ascii_of_nat 191)
    (String (ascii_of_nat 189) EmptyString)).

(** The lone surrogate U+D800, the bytes ED A0 80. *)
Definition loneSurrogate : string :=
  String (ascii_of_nat 237) (String (ascii_of_nat 160)
    (String (ascii_of_nat 128) EmptyString)).

(** The conversion to a USVString: every lone surrogate becomes U+FFFD. *)
Fixpoint toUSVString (s : string) : string :=
  match s with
  | EmptyString => EmptyString
  | String a tail =>
      match tail with
      | String b (String c rest) =>
          if isSurrogateLead a b
          then replacementCharacter ++ toUSVString rest
          else String a (toUSVString tail)
      | _ => String a (toUSVString tail)
      end
  end.

Fixpoint hasLoneSurrogate (s : string) : bool :=
  match s with
  | EmptyString => false
  | String a tail =>
      match tail with
      | String b (String c rest) =>
          if isSurrogateLead a b then true else hasLoneSurrogate tail
      | _ => hasLoneSurrogate tail
      end
  end.

(* ===================================================================== *)
(** ** Property order of objects *)
(* ===================================================================== *)

Definition digitValue (c : ascii) : option N :=
  let n := N_of_ascii c in
  if ((48 <=? n) && (n <=? 57))%N then Some (n - 48)%N else None.

Fixpoint digitsValue (acc : N) (s : string) : option N :=
  match s with
  | EmptyString => Some acc
  | String c rest =>
      match digitValue c with
      | Some d => digitsValue (10 * acc + d)%N rest
      | None => None
      end
  end.

(** The array index that a property key stands for: the key is the
    decimal form, without leading zeros, of an integer from 0 to
    2^32 - 2. *)
Definition arrayIndex (k : string) : option N :=
  match k with
  | EmptyString => None
  | String c rest =>
      if Ascii.eqb c "0" then
        match rest with
        | EmptyString => Some 0%N
        | String _ _ => None
        end
      else
        match digitsValue 0 k with
        | Some n => if (n <=? 4294967294)%N then Some n else None
        | None => None
        end
  end.

(** Assignment to a property that the object has: the value changes, the
    place does not. *)
Fixpoint replaceField (k : string) (v : json) (fields : list (string * json))
  : list (string * json) :=
  match fields with
  | [] => []
  | (k', v') :: rest =>
      if String.eqb k k' then (k', v) :: rest
      else (k', v') :: replaceField k v rest
  end.

(** A new property whose key is the array index [i]: it comes after the
    array indices up to [i] and before everything else. *)
Fixpoint insertIndex (i : N) (k : string) (v : json)
         (fields : list (string * json)) : list (string * json) :=
  match fields with
  | [] => [(k, v)]
  | (k', v') :: rest =>
      match arrayIndex k' with
      | Some j =>
          if (j <=? i)%N then (k', v') :: insertIndex i k v rest
          else (k, v) :: (k', v') :: rest
      | None => (k, v) :: (k', v') :: rest
      end
  end.

(** [obj[k] = v] on an ordinary object. Properties are enumerated with
    the array indices first, in ascending order, and the other keys after
    them in the order of their creation. *)
Definition setProperty (k : string) (v : json) (fields : list (string * json))
  : list (string * json) :=
  match getField k fields with
  | Some _ => replaceField k v fields
  | None =>
      match arrayIndex k with
      | Some i => insertIndex i k v fields
      | None => (fields ++ [(k, v)])%list
      end
  end.

(* ===================================================================== *)
(** ** URLSearchParams *)
(* ===================================================================== *)

Module URLSearchParams.

(** The list of name-value pairs of a [URLSearchParams] object. *)
Definition t : Type := list (string * string).

Definition new : t := [].

Definition append (q : t) (name value : string) : t :=
  (q ++ [(name, value)])%list.

(** Bytes left as they are by the application/x-www-form-urlencoded
    serializer: ASCII letters and digits and [*-._]. *)
Definition isPlain (c : ascii) : bool :=
  let n := nat_of_ascii c in
  (((48 <=? n) && (n <=? 57)) || ((65 <=? n) && (n <=? 90))
   || ((97 <=? n) && (n <=? 122))
   || (n =? 42) || (n =? 45) || (n =? 46) || (n =? 95))%nat.

Definition hexDigit (n : nat) : ascii :=
  nth n (list_ascii_of_string "0123456789ABCDEF") "0"%char.

Definition percentEncode (c : ascii) : string :=
  let n := nat_of_ascii c in
  String "%" (String (hexDigit (n / 16)) (String (hexDigit (n mod 16)) EmptyString)).

Definition encodeByte (c : ascii) : string :=
  if isPlain c then String c EmptyString
  else if Ascii.eqb c " " then "+"
  else percentEncode c.

Fixpoint encodeBytes (s : string) : string :=
  match s with
  | EmptyString => EmptyString
  | String c rest => encodeByte c ++ encodeBytes rest
  end.

(** The serialized form of a name or a value. The names and values of a
    [URLSearchParams] are USVStrings: the conversion that [append] does on
    its arguments is done here, where they are serialized, which is the
    only place where the actions read them. *)
Definition urlencode (s : string) : string :=
  encodeBytes (toUSVString s).

Definition serializePair (p : string * string) : string :=
  urlencode (fst p) ++ "=" ++ urlencode (snd p).

(** [queryParams.toString()]. *)
Definition toString (q : t) : string :=
  String.concat "&" (map serializePair q).

End URLSearchParams.

(* ===================================================================== *)
(** ** Errors, results and completions *)
(* ===================================================================== *)

Inductive PathKey : Type :=
| Key (name : string)
| Index (i : nat).

(** The issues carried by a [ZodError]. *)
Inductive ZodIssue : Type :=
| InvalidType (expected received : string) (path : list PathKey)
| Custom (message : string) (path : list PathKey).

(** The error values of the SDK: a plain [Error], the request error of the
    HTTP client, and the validation error of zod. *)
Inductive JsError : Type :=
| Error (message : string)
| RequestError (status : Z) (message : string)
| ZodError (issues : list ZodIssue).

(** [SafeResult<T>]: [{ success: true, data }] or [{ success: false, error }]. *)
Inductive SafeResult (A : Type) : Type :=
| Success (data : A)
| Failure (error : JsError).
Arguments Success {A} data.
Arguments Failure {A} error.

Definition success {A : Type} (r : SafeResult A) : bool :=
  match r with
  | Success _ => true
  | Failure _ => false
  end.

(** How a call ends: with a value, or with a thrown exception. *)
Inductive Completion (A : Type) : Type :=
| Return (value : A)
| Throw (exn : JsError).
Arguments Return {A} value.
Arguments Throw {A} exn.

(* ===================================================================== *)
(** ** The part of zod used by the actions *)
(* ===================================================================== *)

(** zod is a library outside the repository. The model follows the
    synchronous parser of zod 3 for the builders of the source
    ([z.string], [z.number], [z.boolean], [.nullable()], [z.array],
    [z.object], [.passthrough()]): every declared field and every item is
    parsed, the issues of all of them are reported together, and a valid
    object is a new object to which the declared fields and then, with
    passthrough, the other fields of the input are assigned, but for the
    key [__proto__], which is never assigned. *)
Module Zod.

(** What a parse comes to: a value, issues, or an exception thrown by a
    refinement or a transform of the schema, which ends the whole parse. *)
Inductive ParseReturn : Type :=
| OK (value : json)
| INVALID (issues : list ZodIssue)
| THROWS (exn : JsError).

(** What an object schema does with the keys it does not declare:
    [z.object] strips them, [.passthrough()] keeps them. *)
Inductive UnknownKeys : Type := Strip | Passthrough.

(** Schemas. [ZodEffects] stands for every schema that is not built from
    the other constructors (refinements, transforms, unions, ...): it is
    given by what it does to its input. A refinement that throws, or an
    asynchronous one met by the synchronous parser, is a [THROWS]. A
    schema is a function of its input: a refinement whose answer depends
    on state that changes between two calls is not modelled. *)
Inductive ZodType : Type :=
| ZodString
| ZodNumber
| ZodBoolean
| ZodNullable (inner : ZodType)
| ZodArray (element : ZodType)
| ZodObject (shape : list (string * ZodType)) (unknownKeys : UnknownKeys)
| ZodEffects (run : option json -> ParseReturn).

(** Builders, named as in the library. *)
Definition string : ZodType := ZodString.
Definition number : ZodType := ZodNumber.
Definition boolean : ZodType := ZodBoolean.
Definition nullable (s : ZodType) : ZodType := ZodNullable s.
Definition array (s : ZodType) : ZodType := ZodArray s.
Definition object (shape : list (String.string * ZodType)) : ZodType :=
  ZodObject shape Strip.
Definition passthrough (s : ZodType) : ZodType :=
  match s with
  | ZodObject shape _ => ZodObject shape Passthrough
  | other => other
  end.

Definition getParsedType (input : option json) : String.string :=
  match input with
  | None => "undefined"
  | Some JNull => "null"
  | Some (JBool _) => "boolean"
  | Some (JNum NumNaN) => "nan"
  | Some (JNum _) => "number"
  | Some (JStr _) => "string"
  | Some (JArr _) => "array"
  | Some (JObj _) => "object"
  end.

Definition issuesOf (r : ParseReturn) : list ZodIssue :=
  match r with
  | INVALID issues => issues
  | _ => []
  end.

Definition isOK (r : ParseReturn) : bool :=
  match r with
  | OK _ => true
  | _ => false
  end.

(** The exception of the first parse that threw. *)
Fixpoint firstThrown (rs : list ParseReturn) : option JsError :=
  match rs with
  | [] => None
  | THROWS e :: _ => Some e
  | _ :: rest => firstThrown rest
  end.

(** The values of the results that are valid. *)
Fixpoint validValues (rs : list ParseReturn) : list json :=
  match rs with
  | [] => []
  | OK v :: rest => v :: validValues rest
  | _ :: rest => validValues rest
  end.

Fixpoint validFields (rs : list (String.string * ParseReturn))
  : list (String.string * json) :=
  match rs with
  | [] => []
  | (k, OK v) :: rest => (k, v) :: validFields rest
  | _ :: rest => validFields rest
  end.

(** An array is valid when all its items are; the issues of all items
    are reported together. *)
Definition mergeArray (rs : list ParseReturn) : ParseReturn :=
  match firstThrown rs with
  | Some e => THROWS e
  | None =>
      if forallb isOK rs then OK (JArr (validValues rs))
      else INVALID (flat_map issuesOf rs)
  end.

(** [finalObject[key] = value], unless the key is [__proto__]. *)
Definition assign (obj : list (String.string * json))
           (kv : String.string * json) : list (String.string * json) :=
  if String.eqb (fst kv) "__proto__" then obj
  else setProperty (fst kv) (snd kv) obj.

Definition finalObject (pairs : list (String.string * json)) : json :=
  JObj (fold_left assign pairs []).

Definition mergeObject (rs : list (String.string * ParseReturn)) : ParseReturn :=
  match firstThrown (map snd rs) with
  | Some e => THROWS e
  | None =>
      if forallb (fun kr => isOK (snd kr)) rs
      then OK (finalObject (validFields rs))
      else INVALID (flat_map (fun kr => issuesOf (snd kr)) rs)
  end.

(** [keys.includes(key)]. *)
Definition includes (keys : list String.string) (key : String.string) : bool :=
  existsb (String.eqb key) keys.

(** The keys of the input that the shape does not declare, in the order
    of the input. *)
Definition extraKeys (shapeKeys : list String.string)
           (fields : list (String.string * json)) : list String.string :=
  filter (fun k => negb (includes shapeKeys k)) (map fst fields).

(** The pairs of these keys, each with the value read from the input
    under its key. *)
Definition extraPairs (shapeKeys : list String.string)
           (fields : list (String.string * json))
  : list (String.string * ParseReturn) :=
  flat_map (fun k => match getField k fields with
                     | Some v => [(k, OK v)]
                     | None => []
                     end)
           (extraKeys shapeKeys fields).

Fixpoint mapi {A B : Type} (f : nat -> A -> B) (i : nat) (l : list A) : list B :=
  match l with
  | [] => []
  | x :: rest => f i x :: mapi f (S i) rest
  end.

Definition addPath (path : list PathKey) (i : ZodIssue) : ZodIssue :=
  match i with
  | InvalidType e r p => InvalidType e r (path ++ p)%list
  | Custom m p => Custom m (path ++ p)%list
  end.

Fixpoint _parse (t : ZodType) (path : list PathKey) (input : option json)
         {struct t} : ParseReturn :=
  match t with
  | ZodString =>
      match input with
      | Some (JStr s) => OK (JStr s)
      | _ => INVALID [InvalidType "string" (getParsedType input) path]
      end
  | ZodNumber =>
      match input with
      | Some (JNum NumNaN) =>
          INVALID [InvalidType "number" (getParsedType input) path]
      | Some (JNum n) => OK (JNum n)
      | _ => INVALID [InvalidType "number" (getParsedType input) path]
      end
  | ZodBoolean =>
      match input with
      | Some (JBool b) => OK (JBool b)
      | _ => INVALID [InvalidType "boolean" (getParsedType input) path]
      end
  | ZodNullable inner =>
      match input with
      | Some JNull => OK JNull
      | _ => _parse inner path input
      end
  | ZodArray element =>
      match input with
      | Some (JArr items) =>
          mergeArray
            (mapi (fun i x => _parse element (path ++ [Index i])%list (Some x)) 0 items)
      | _ => INVALID [InvalidType "array" (getParsedType input) path]
      end
  | ZodObject shape unknownKeys =>
      match input with
      | Some (JObj fields) =>
          let declared :=
            map (fun ks => (fst ks,
                            _parse (snd ks) (path ++ [Key (fst ks)])%list
                                   (getField (fst ks) fields)))
                shape in
          match unknownKeys with
          | Passthrough =>
              mergeObject (declared ++ extraPairs (map fst shape) fields)%list
          | Strip => mergeObject declared
          end
      | _ => INVALID [InvalidType "object" (getParsedType input) path]
      end
  | ZodEffects run =>
      match run input with
      | OK v => OK v
      | INVALID issues => INVALID (map (addPath path) issues)
      | THROWS e => THROWS e
      end
  end.

(** [schema.safeParse(data)]: a result, unless the parse threw. *)
Definition safeParse (schema : ZodType) (data : json)
  : Completion (SafeResult json) :=
  match _parse schema [] (Some data) with
  | OK v => Return (Success v)
  | INVALID issues => Return (Failure (ZodError issues))
  | THROWS e => Throw e
  end.

(** [schema.parse(data)]: the data of [safeParse], or its error thrown. *)
Definition parse (schema : ZodType) (data : json) : Completion json :=
  match safeParse schema data with
  | Return (Success v) => Return v
  | Return (Failure e) => Throw e
  | Throw e => Throw e
  end.

End Zod.
(* ===================================================================== *)
(** ** The client and the monad of the actions *)
(* ===================================================================== *)

Inductive ClientMethod : Type := ViaGet | ViaSafeGet.

(** One HTTP GET handed to the client. *)
Record Request : Type := mkRequest {
  via : ClientMethod;
  url : string
}.

(** The base client, over the state [W] of everything behind it (server,
    network, the client's own bookkeeping). [get] answers with the response
    or throws; [safeGet] answers with a tagged result and, as its type
    [Promise<SafeResult<T>>] has it, does not throw. *)
Record Client (W : Type) : Type := mkClient {
  get : string -> W -> Completion json * W;
  safeGet : string -> W -> SafeResult json * W
}.
Arguments get {W} c _ _.
Arguments safeGet {W} c _ _.

Record Session (W : Type) : Type := mkSession {
  world : W;
  issued : list Request
}.
Arguments mkSession {W} world issued.
Arguments world {W} s.
Arguments issued {W} s.

Definition Async (W A : Type) : Type := Session W -> Completion A * Session W.

Definition ret {W A : Type} (a : A) : Async W A :=
  fun s => (Return a, s).

Definition bind {W A B : Type} (m : Async W A) (k : A -> Async W B) : Async W B :=
  fun s =>
    match m s with
    | (Return a, s') => k a s'
    | (Throw e, s') => (Throw e, s')
    end.

(** A synchronous call inside an async function. *)
Definition call {W A : Type} (c : Completion A) : Async W A :=
  fun s => (c, s).

Notation "x <- m ;; k" := (bind m (fun x => k))
  (at level 61, m at next level, right associativity).
Notation "m ;; k" := (bind m (fun _ => k))
  (at level 61, right associativity).

(** [await client.get(url)]. *)
Definition client_get {W : Type} (client : Client W) (u : string) : Async W json :=
  fun s =>
    let (r, w') := get client u (world s) in
    (r, mkSession w' (issued s ++ [mkRequest ViaGet u])%list).

(** [await client.safeGet(url)]. *)
Definition client_safeGet {W : Type} (client : Client W) (u : string)
  : Async W (SafeResult json) :=
  fun s =>
    let (r, w') := safeGet client u (world s) in
    (Return r, mkSession w' (issued s ++ [mkRequest ViaSafeGet u])%list).

(* ===================================================================== *)
(** ** Schemas and parameters of the workspace actions *)
(* ===================================================================== *)

Definition WorkspaceResponseSchema : Zod.ZodType :=
  Zod.passthrough
    (Zod.object
       [ ("id", Zod.string);
         ("name", Zod.string);
         ("slug", Zod.nullable Zod.string);
         ("tier", Zod.string);
         ("role", Zod.string);
         ("created_at", Zod.string) ]).

Definition PaginationMetadataSchema : Zod.ZodType :=
  Zod.passthrough
    (Zod.object
       [ ("has_more", Zod.boolean);
         ("next_cursor", Zod.nullable Zod.string);
         ("total", Zod.nullable Zod.number) ]).

Definition ListWorkspacesSchema : Zod.ZodType :=
  Zod.passthrough
    (Zod.object
       [ ("data", Zod.array WorkspaceResponseSchema);
         ("pagination", PaginationMetadataSchema) ]).

(** The [schema] option, [T extends z.ZodSchema | false | undefined]. *)
Inductive SchemaOption : Type :=
| SchemaUndefined
| SchemaFalse
| SchemaZod (s : Zod.ZodType).

(** [ActionParameters<T>]: what every parameters object of an action has. *)
Class ActionParameters (P : Type) : Type :=
  schema : P -> SchemaOption.

Record GetWorkspaceParameters : Type := mkGetWorkspaceParameters {
  gw_schema : SchemaOption
}.

Record ListWorkspacesParameters : Type := mkListWorkspacesParameters {
  lw_schema : SchemaOption;
  cursor : option string;
  limit : option JsNumber
}.

#[export] Instance GetWorkspace_ActionParameters
  : ActionParameters GetWorkspaceParameters := gw_schema.
#[export] Instance ListWorkspaces_ActionParameters
  : ActionParameters ListWorkspacesParameters := lw_schema.

(** [parameters?.schema], [parameters?.cursor], [parameters?.limit]. *)
Definition parameters_schema {P : Type} `{ActionParameters P}
           (parameters : option P) : SchemaOption :=
  match parameters with
  | Some p => schema p
  | None => SchemaUndefined
  end.

Definition parameters_cursor (parameters : option ListWorkspacesParameters)
  : option string :=
  match parameters with
  | Some p => cursor p
  | None => None
  end.

Definition parameters_limit (parameters : option ListWorkspacesParameters)
  : option JsNumber :=
  match parameters with
  | Some p => limit p
  | None => None
  end.

(** [x === false]. *)
Definition isFalse (s : SchemaOption) : bool :=
  match s with
  | SchemaFalse => true
  | _ => false
  end.

(** [x || fallback]: a schema object is truthy, [false] and [undefined]
    are not. *)
Definition orElse (s : SchemaOption) (fallback : Zod.ZodType) : Zod.ZodType :=
  match s with
  | SchemaZod z => z
  | _ => fallback
  end.

(** [if (parameters?.cursor) queryParams.append("cursor", parameters.cursor)]. *)
Definition appendCursor (parameters : option ListWorkspacesParameters)
           (queryParams : URLSearchParams.t) : URLSearchParams.t :=
  match parameters_cursor parameters with
  | Some c =>
      if string_truthy c then URLSearchParams.append queryParams "cursor" c
      else queryParams
  | None => queryParams
  end.

(** [if (parameters?.limit) queryParams.append("limit", parameters.limit.toString())]. *)
Definition appendLimit (parameters : option ListWorkspacesParameters)
           (queryParams : URLSearchParams.t) : URLSearchParams.t :=
  match parameters_limit parameters with
  | Some n =>
      if number_truthy n
      then URLSearchParams.append queryParams "limit" (number_toString n)
      else queryParams
  | None => queryParams
  end.

(* ===================================================================== *)
(** ** The actions *)
(* ===================================================================== *)

Section Actions.

Context {W : Type}.

(** The two validators of utils, which the actions call first. They are
    generic in the parameters type. [validateActionParameters] returns or
    throws; [safeValidateActionParameters] returns [undefined] ([None])
    or a result object and, as its type has it, does not throw. *)
Variable validateActionParameters :
  forall (P : Type), ActionParameters P -> option P -> Completion unit.
Variable safeValidateActionParameters :
  forall (P : Type), ActionParameters P -> option P -> option (SafeResult json).

Definition listWorkspaces (client : Client W)
           (parameters : option ListWorkspacesParameters) : Async W json :=
  call (validateActionParameters _ _ parameters) ;;
  let queryParams := URLSearchParams.new in
  let queryParams := appendCursor parameters queryParams in
  let queryParams := appendLimit parameters queryParams in
  let url :=
    if string_truthy (URLSearchParams.toString queryParams)
    then "/workspaces?" ++ URLSearchParams.toString queryParams
    else "/workspaces" in
  response <- client_get client url ;;
  if isFalse (parameters_schema parameters) then ret response
  else
    let schema := orElse (parameters_schema parameters) ListWorkspacesSchema in
    call (Zod.parse schema response).

Definition safeListWorkspaces (client : Client W)
           (parameters : option ListWorkspacesParameters)
  : Async W (SafeResult json) :=
  let parameterValidationError := safeValidateActionParameters _ _ parameters in
  match parameterValidationError with
  | Some e => ret e
  | None =>
      let queryParams := URLSearchParams.new in
      let queryParams := appendCursor parameters queryParams in
      let queryParams := appendLimit parameters queryParams in
      let url :=
        if string_truthy (URLSearchParams.toString queryParams)
        then "/workspaces?" ++ URLSearchParams.toString queryParams
        else "/workspaces" in
      httpResult <- client_safeGet client url ;;
      match httpResult with
      | Failure e => ret (Failure e)
      | Success data =>
          if isFalse (parameters_schema parameters) then ret (Success data)
          else
            let schema :=
              orElse (parameters_schema parameters) ListWorkspacesSchema in
            call (Zod.safeParse schema data)
      end
  end.

Definition getWorkspace (client : Client W) (teamSlug : string)
           (parameters : option GetWorkspaceParameters) : Async W json :=
  call (validateActionParameters _ _ parameters) ;;
  response <- client_get client ("/workspaces/" ++ teamSlug) ;;
  if isFalse (parameters_schema parameters) then ret response
  else
    let schema := orElse (parameters_schema parameters) WorkspaceResponseSchema in
    call (Zod.parse schema response).

Definition safeGetWorkspace (client : Client W) (teamSlug : string)
           (parameters : option GetWorkspaceParameters)
  : Async W (SafeResult json) :=
  let parameterValidationError := safeValidateActionParameters _ _ parameters in
  match parameterValidationError with
  | Some e => ret e
  | None =>
      httpResult <- client_safeGet client ("/workspaces/" ++ teamSlug) ;;
      match httpResult with
      | Failure e => ret (Failure e)
      | Success data =>
          if isFalse (parameters_schema parameters) then ret (Success data)
          else
            let schema :=
              orElse (parameters_schema parameters) WorkspaceResponseSchema in
            call (Zod.safeParse schema data)
      end
  end.

End Actions.

(* ===================================================================== *)
(** ** Derived descriptions used in the statements *)
(* ===================================================================== *)

(** The URL that [listWorkspaces] and [safeListWorkspaces] compute. *)
Definition listWorkspacesUrl (parameters : option ListWorkspacesParameters)
  : string :=
  let queryParams := URLSearchParams.new in
  let queryParams := appendCursor parameters queryParams in
  let queryParams := appendLimit parameters queryParams in
  if string_truthy (URLSearchParams.toString queryParams)
  then "/workspaces?" ++ URLSearchParams.toString queryParams
  else "/workspaces".

(** The URL that [getWorkspace] and [safeGetWorkspace] compute. *)
Definition getWorkspaceUrl (teamSlug : string) : string :=
  "/workspaces/" ++ teamSlug.

(** What the throwing variants make of the client's answer. *)
Definition validated (s : SchemaOption) (fallback : Zod.ZodType)
           (answer : Completion json) : Completion json :=
  match answer with
  | Return response =>
      if isFalse s then Return response
      else Zod.parse (orElse s fallback) response
  | Throw e => Throw e
  end.

(** What the safe variants make of the client's answer. *)
Definition safeValidated (s : SchemaOption) (fallback : Zod.ZodType)
           (answer : SafeResult json) : Completion (SafeResult json) :=
  match answer with
  | Success data =>
      if isFalse s then Return (Success data)
      else Zod.safeParse (orElse s fallback) data
  | Failure e => Return (Failure e)
  end.

(** The tagged result that stands for a completion. *)
Definition toSafeResult {A : Type} (c : Completion A) : SafeResult A :=
  match c with
  | Return v => Success v
  | Throw e => Failure e
  end.

(** The query pairs made of the cursor and the limit that pass a test, in
    the order of the source. *)
Definition queryPairs (cursorIn : string -> bool) (limitIn : JsNumber -> bool)
           (parameters : option ListWorkspacesParameters) : URLSearchParams.t :=
  ((match parameters_cursor parameters with
    | Some c => if cursorIn c then [("cursor", c)] else []
    | None => []
    end)
   ++
   (match parameters_limit parameters with
    | Some n => if limitIn n then [("limit", number_toString n)] else []
    | None => []
    end))%list.

(** ["/workspaces"], followed by [?] and the serialized pairs when there
    are any. *)
Definition workspacesUrl (q : URLSearchParams.t) : string :=
  match q with
  | [] => "/workspaces"
  | _ :: _ => "/workspaces?" ++ URLSearchParams.toString q
  end.

(** The URL of the specification: cursor and limit are in the query exactly
    when the caller supplies them. *)
Definition spec_listWorkspacesUrl (parameters : option ListWorkspacesParameters)
  : string :=
  workspacesUrl (queryPairs (fun _ => true) (fun _ => true) parameters).

(** The URL with cursor and limit in the query exactly when they are
    supplied and truthy. *)
Definition truthy_listWorkspacesUrl (parameters : option ListWorkspacesParameters)
  : string :=
  workspacesUrl (queryPairs string_truthy number_truthy parameters).

(** Reading a request path. *)
Fixpoint stripPrefix (prefix s : string) : option string :=
  match prefix, s with
  | EmptyString, _ => Some s
  | String a prefix', String b s' =>
      if Ascii.eqb a b then stripPrefix prefix' s' else None
  | String _ _, EmptyString => None
  end.

Fixpoint contains (c : ascii) (s : string) : bool :=
  match s with
  | EmptyString => false
  | String d rest => Ascii.eqb c d || contains c rest
  end.

(** The part of a URL after its first [?], when it has one. *)
Fixpoint queryString (u : string) : option string :=
  match u with
  | EmptyString => None
  | String c rest => if Ascii.eqb c "?" then Some rest else queryString rest
  end.

(** [path] is ["/workspaces/"] followed by one non-empty path segment:
    no further [/], no query ([?]) and no fragment ([#]). *)
Definition singleSegmentPath (path : string) : bool :=
  match stripPrefix "/workspaces/" path with
  | Some segment =>
      string_truthy segment
      && negb (contains "/" segment)
      && negb (contains "?" segment)
      && negb (contains "#" segment)
  | None => false
  end.

(** The fields of a response that survive validation: both values are
    objects, every key outside [keys] other than [__proto__] has in the
    value what it has in the response (a value, or nothing), and the value
    has no own key [__proto__]. *)
Definition keepsOtherFields (keys : list string) (response value : json) : Prop :=
  exists fields fields',
    response = JObj fields /\ value = JObj fields' /\
    (forall k, ~ In k keys -> k <> "__proto__" ->
               getField k fields' = getField k fields) /\
    getField "__proto__" fields' = None.

(** The same as the specification has it: every key outside [keys],
    whatever it is. *)
Definition spec_keepsUnknownFields (keys : list string) (response value : json)
  : Prop :=
  exists fields fields',
    response = JObj fields /\ value = JObj fields' /\
    (forall k, ~ In k keys -> getField k fields' = getField k fields).

(** Validation changed no value: every key other than [__proto__] has in
    the value what it has in the response, and the value has no own key
    [__proto__]. *)
Definition sameValues (response value : json) : Prop :=
  keepsOtherFields [] response value.

Definition workspaceKeys : list string :=
  ["id"; "name"; "slug"; "tier"; "role"; "created_at"].
Definition paginationKeys : list string :=
  ["has_more"; "next_cursor"; "total"].
Definition listWorkspacesKeys : list string :=
  ["data"; "pagination"].

(** The same for a page of workspaces: at the top level, in the
    [pagination] object, and in every workspace of [data]. *)
Definition keepsOtherListFields (response value : json) : Prop :=
  keepsOtherFields listWorkspacesKeys response value /\
  exists fields fields' items items' pagination pagination',
    response = JObj fields /\ value = JObj fields' /\
    getField "data" fields = Some (JArr items) /\
    getField "data" fields' = Some (JArr items') /\
    Forall2 (keepsOtherFields workspaceKeys) items items' /\
    getField "pagination" fields = Some pagination /\
    getField "pagination" fields' = Some pagination' /\
    keepsOtherFields paginationKeys pagination pagination'.

(** Validation changed no value of a page: the workspaces of [data] and
    the [pagination] object have their values, as [sameValues] has it. *)
Definition samePage (response value : json) : Prop :=
  exists fields fields' items items' pagination pagination',
    response = JObj fields /\ value = JObj fields' /\
    getField "data" fields = Some (JArr items) /\
    getField "data" fields' = Some (JArr items') /\
    Forall2 sameValues items items' /\
    getField "pagination" fields = Some pagination /\
    getField "pagination" fields' = Some pagination' /\
    sameValues pagination pagination'.




(* ===================================================================== *)
(** ** Test doubles *)
(* ===================================================================== *)

(** Validators that admit every parameters object. *)
Definition validateAny (P : Type) (_ : ActionParameters P) (_ : option P)
  : Completion unit := Return tt.
Definition safeValidateAny (P : Type) (_ : ActionParameters P) (_ : option P)
  : option (SafeResult json) := None.

(** Validators that refuse some parameters, here those with a schema of
    the caller: they stand for a failure of the two validators of utils,
    whatever its cause. *)
Definition validateBuiltin (P : Type) (H : ActionParameters P)
           (parameters : option P) : Completion unit :=
  match parameters_schema parameters with
  | SchemaZod _ => Throw (Error "Invalid schema")
  | _ => Return tt
  end.
Definition safeValidateBuiltin (P : Type) (H : ActionParameters P)
           (parameters : option P) : option (SafeResult json) :=
  match parameters_schema parameters with
  | SchemaZod _ => Some (Failure (Error "Invalid schema"))
  | _ => None
  end.

Definition acme : json :=
  JObj [ ("id", JStr "ws_1"); ("name", JStr "Acme"); ("slug", JStr "acme");
         ("avatar", JNull);
         ("tier", JStr "pro"); ("role", JStr "owner");
         ("created_at", JStr "2024-01-01T00:00:00Z");
         ("features", JArr [JStr "tee"]) ].

Definition acmePage : json :=
  JObj [ ("request_id", JStr "r-7");
         ("data", JArr [acme]);
         ("pagination",
          JObj [ ("has_more", JBool false); ("next_cursor", JNull);
                 ("total", JNum (NumInt 1)); ("page_size", JNum (NumInt 20)) ]) ].

(** A workspace with an own key [__proto__] and an array index among its
    keys, as [JSON.parse] gives it: the array index first. *)
Definition polluted : json :=
  JObj [ ("7", JStr "seven");
         ("id", JStr "ws_2"); ("name", JStr "Mallory"); ("slug", JNull);
         ("__proto__", JObj [("isAdmin", JBool true)]);
         ("tier", JStr "free"); ("role", JStr "member");
         ("created_at", JStr "2024-02-02T00:00:00Z");
         ("avatar", JNull) ].

(** What the default schemas return for the three responses above: the
    array indices first, then the declared keys in the order of the
    schema, then the other keys in the order of the response; no key
    [__proto__]. *)
Definition acmeValidated : json :=
  JObj [ ("id", JStr "ws_1"); ("name", JStr "Acme"); ("slug", JStr "acme");
         ("tier", JStr "pro"); ("role", JStr "owner");
         ("created_at", JStr "2024-01-01T00:00:00Z");
         ("avatar", JNull);
         ("features", JArr [JStr "tee"]) ].

Definition acmePageValidated : json :=
  JObj [ ("data", JArr [acmeValidated]);
         ("pagination",
          JObj [ ("has_more", JBool false); ("next_cursor", JNull);
                 ("total", JNum (NumInt 1)); ("page_size", JNum (NumInt 20)) ]);
         ("request_id", JStr "r-7") ].

Definition pollutedValidated : json :=
  JObj [ ("7", JStr "seven");
         ("id", JStr "ws_2"); ("name", JStr "Mallory"); ("slug", JNull);
         ("tier", JStr "free"); ("role", JStr "member");
         ("created_at", JStr "2024-02-02T00:00:00Z");
         ("avatar", JNull) ].

Definition sampleRoute (u : string) : Completion json :=
  if String.eqb u "/workspaces/acme" then Return acme
  else if String.eqb u "/workspaces" then Return acmePage
  else if String.eqb u "/workspaces/broken" then Return (JObj [("id", JNum (NumInt 3))])
  else if String.eqb u "/workspaces/polluted" then Return polluted
  else Throw (RequestError 404 "Not Found").

(** A client whose state counts the requests it has served, and which
    answers 429 from the fourth request on. *)
Definition sampleClient : Client nat :=
  {| get u w :=
       (if (3 <=? w)%nat then Throw (RequestError 429 "Too Many Requests")
        else sampleRoute u, S w);
     safeGet u w :=
       (if (3 <=? w)%nat then Failure (RequestError 429 "Too Many Requests")
        else toSafeResult (sampleRoute u), S w) |}.

Definition fresh : Session nat := mkSession 0%nat [].

(** A schema with a transform: it keeps the [id] of an object. *)
Definition idOnly : Zod.ZodType :=
  Zod.ZodEffects (fun input =>
    match input with
    | Some (JObj fields) =>
        match getField "id" fields with
        | Some (JStr i) => Zod.OK (JStr i)
        | _ => Zod.INVALID [InvalidType "string" "undefined" [Key "id"]]
        end
    | _ => Zod.INVALID [InvalidType "object" (Zod.getParsedType input) []]
    end).


(* ===================================================================== *)
(** ** Closed forms of the default schemas and of the query *)
(* ===================================================================== *)

(** What the leaves of the default schemas accept. *)
Definition isString (v : option json) : bool :=
  match v with
  | Some (JStr _) => true
  | _ => false
  end.

Definition isNullableString (v : option json) : bool :=
  match v with
  | Some (JStr _) | Some JNull => true
  | _ => false
  end.

Definition isBoolean (v : option json) : bool :=
  match v with
  | Some (JBool _) => true
  | _ => false
  end.

Definition isNullableNumber (v : option json) : bool :=
  match v with
  | Some (JNum NumNaN) => false
  | Some (JNum _) | Some JNull => true
  | _ => false
  end.

(** The shape declared by [WorkspaceResponseSchema]. *)
Definition validWorkspace (r : json) : bool :=
  match r with
  | JObj fields =>
      isString (getField "id" fields)
      && isString (getField "name" fields)
      && isNullableString (getField "slug" fields)
      && isString (getField "tier" fields)
      && isString (getField "role" fields)
      && isString (getField "created_at" fields)
  | _ => false
  end.

(** The shape declared by [PaginationMetadataSchema]. *)
Definition validPagination (r : json) : bool :=
  match r with
  | JObj fields =>
      isBoolean (getField "has_more" fields)
      && isNullableString (getField "next_cursor" fields)
      && isNullableNumber (getField "total" fields)
  | _ => false
  end.

(** The shape declared by [ListWorkspacesSchema]. *)
Definition validListWorkspaces (r : json) : bool :=
  match r with
  | JObj fields =>
      match getField "data" fields with
      | Some (JArr items) => forallb validWorkspace items
      | _ => false
      end
      && match getField "pagination" fields with
         | Some p => validPagination p
         | None => false
         end
  | _ => false
  end.

(** Schemas built without [ZodEffects], whose objects declare distinct
    keys that are neither array indices nor [__proto__]. The three default
    schemas are such schemas. *)
Definition namedKey (k : string) : bool :=
  match arrayIndex k with
  | Some _ => false
  | None => negb (String.eqb k "__proto__")
  end.

Fixpoint distinct (keys : list string) : bool :=
  match keys with
  | [] => true
  | k :: rest => negb (existsb (String.eqb k) rest) && distinct rest
  end.

Fixpoint structural (t : Zod.ZodType) : bool :=
  match t with
  | Zod.ZodString | Zod.ZodNumber | Zod.ZodBoolean => true
  | Zod.ZodNullable inner => structural inner
  | Zod.ZodArray element => structural element
  | Zod.ZodObject shape _ =>
      forallb namedKey (map fst shape) && distinct (map fst shape)
      && forallb (fun ks => structural (snd ks)) shape
  | Zod.ZodEffects _ => false
  end.

(** Notions for the order of the properties of an object: the keys that
    are array indices, compared by their index, and the shape of an object
    built by zod, which is a run [I] of array indices in ascending order,
    the declared fields [D], and a run [T] of other keys. *)
Definition isIndexKey (k : string) : bool :=
  match arrayIndex k with
  | Some _ => true
  | None => false
  end.

Definition indexOf (k : string) : N :=
  match arrayIndex k with
  | Some i => i
  | None => 0%N
  end.

Definition leIndex (a b : string) : Prop := (indexOf a <= indexOf b)%N.

Definition indexEntry (kv : string * json) : Prop := isIndexKey (fst kv) = true.
Definition namedEntry (kv : string * json) : Prop := namedKey (fst kv) = true.

Definition shaped (D I T : list (string * json)) : Prop :=
  Forall indexEntry I
  /\ StronglySorted leIndex (map fst I)
  /\ Forall namedEntry T
  /\ (forall k, In k (map fst T) -> ~ In k (map fst D))
  /\ NoDup (map fst (I ++ D ++ T)).

(** All the bytes of a string pass a test. *)
Fixpoint forallChars (p : ascii -> bool) (s : string) : bool :=
  match s with
  | EmptyString => true
  | String c rest => p c && forallChars p rest
  end.

(** The bytes that an encoded name or value is made of, and those of a
    serialized query, which has [=] and [&] between names and values. *)
Definition isEncodedChar (c : ascii) : bool :=
  URLSearchParams.isPlain c || Ascii.eqb c "+" || Ascii.eqb c "%".

Definition isQueryChar (c : ascii) : bool :=
  isEncodedChar c || Ascii.eqb c "=" || Ascii.eqb c "&".

(** The results of fields that were all accepted. *)
Definition okPairs (fields : list (string * json))
  : list (string * Zod.ParseReturn) :=
  map (fun kv => (fst kv, Zod.OK (snd kv))) fields.
(* ===================================================================== *)
(** ** Serialization of the query *)
(* ===================================================================== *)

Lemma string_truthy_app (a b : string) :
  string_truthy (a ++ b) = string_truthy a || string_truthy b.
Proof. destruct a; reflexivity. Qed.

Lemma serializePair_truthy (p : string * string) :
  string_truthy (URLSearchParams.serializePair p) = true.
Proof.
  unfold URLSearchParams.serializePair.
  rewrite string_truthy_app. apply orb_true_iff. right. reflexivity.
Qed.

Lemma toString_truthy (p : string * string) (q : URLSearchParams.t) :
  string_truthy (URLSearchParams.toString (p :: q)) = true.
Proof.
  unfold URLSearchParams.toString. cbn [map String.concat].
  destruct (map URLSearchParams.serializePair q).
  - apply serializePair_truthy.
  - rewrite string_truthy_app, serializePair_truthy. reflexivity.
Qed.

(** The URL computed by the source is ["/workspaces"] plus the query of the
    truthy pagination values. *)
Lemma listWorkspacesUrl_truthy (parameters : option ListWorkspacesParameters) :
  listWorkspacesUrl parameters = truthy_listWorkspacesUrl parameters.
Proof.
  unfold listWorkspacesUrl, truthy_listWorkspacesUrl, queryPairs,
    appendCursor, appendLimit, URLSearchParams.new, URLSearchParams.append.
  destruct (parameters_cursor parameters) as [c|];
    destruct (parameters_limit parameters) as [n|];
    try destruct (string_truthy c); try destruct (number_truthy n);
    cbn [app workspacesUrl]; try rewrite toString_truthy; reflexivity.
Qed.

(** Which pairs the query of truthy values holds. *)
Lemma queryPairs_truthy_In (parameters : option ListWorkspacesParameters)
      (name value : string) :
  In (name, value) (queryPairs string_truthy number_truthy parameters)
  <-> (name = "cursor" /\ parameters_cursor parameters = Some value /\ value <> "")
      \/ (name = "limit"
          /\ exists n, parameters_limit parameters = Some n
                       /\ number_truthy n = true
                       /\ value = number_toString n).
Proof.
  unfold queryPairs. rewrite in_app_iff.
  match goal with |- ?A \/ ?B <-> ?A' \/ ?B' =>
    cut ((A <-> A') /\ (B <-> B')); [tauto|split]
  end.
  - destruct (parameters_cursor parameters) as [c|].
    + destruct c as [|a c']; cbn [string_truthy In]; split.
      * intros [].
      * intros (_ & E & Hne). injection E as <-. congruence.
      * intros [E|[]]. injection E as <- <-. repeat split. discriminate.
      * intros (-> & E & _). injection E as <-. left. reflexivity.
    + cbn [In]. split; [intros [] | intros (_ & E & _); discriminate].
  - destruct (parameters_limit parameters) as [n|].
    + destruct (number_truthy n) eqn:Hn; cbn [In]; split.
      * intros [E|[]]. injection E as <- <-. split; [reflexivity|].
        exists n. repeat split. exact Hn.
      * intros (-> & m & E & _ & ->). injection E as <-. left. reflexivity.
      * intros [].
      * intros (_ & m & E & Hm & _). injection E as <-. congruence.
    + cbn [In]. split; [intros [] | intros (_ & m & E & _); discriminate].
Qed.

(* ===================================================================== *)
(** ** Assignment to the properties of an object *)
(* ===================================================================== *)

Lemma getField_app (k : string) (a b : list (string * json)) :
  getField k (a ++ b)
  = match getField k a with
    | Some v => Some v
    | None => getField k b
    end.
Proof.
  induction a as [|[k' v'] rest IH]; cbn [app getField].
  - reflexivity.
  - destruct (String.eqb k k'); [reflexivity | exact IH].
Qed.

Lemma getField_None_iff (k : string) (fields : list (string * json)) :
  getField k fields = None <-> ~ In k (map fst fields).
Proof.
  induction fields as [|[k' v'] rest IH]; cbn [getField map fst In].
  - split; [intros _ [] | reflexivity].
  - destruct (String.eqb_spec k k') as [->|Hne].
    + split; [discriminate | intros H; exfalso; apply H; left; reflexivity].
    + rewrite IH. split.
      * intros H [E|E]; [congruence | contradiction].
      * intros H E. apply H. right. exact E.
Qed.

Lemma getField_Some_In (k : string) (v : json) (fields : list (string * json)) :
  getField k fields = Some v -> In (k, v) fields.
Proof.
  induction fields as [|[k' v'] rest IH]; cbn [getField]; [discriminate|].
  destruct (String.eqb_spec k k') as [->|_].
  - intros H. injection H as ->. left. reflexivity.
  - intros H. right. apply IH. exact H.
Qed.

(** In an object without a repeated key, every property is the one that a
    read of its key finds. *)
Lemma In_getField (k : string) (v : json) (fields : list (string * json)) :
  NoDup (map fst fields) -> In (k, v) fields -> getField k fields = Some v.
Proof.
  induction fields as [|[k' v'] rest IH]; cbn [map fst getField]; [intros _ []|].
  intros Hnd [E|E].
  - injection E as -> ->. rewrite String.eqb_refl. reflexivity.
  - apply NoDup_cons_iff in Hnd. destruct Hnd as [Hk Hnd].
    destruct (String.eqb_spec k k') as [->|_].
    + exfalso. apply Hk. apply (in_map fst) in E. exact E.
    + apply IH; assumption.
Qed.

Lemma replaceField_keys (k : string) (v : json) (fields : list (string * json)) :
  map fst (replaceField k v fields) = map fst fields.
Proof.
  induction fields as [|[k' v'] rest IH]; cbn [replaceField]; [reflexivity|].
  destruct (String.eqb k k'); cbn [map fst]; [reflexivity|].
  rewrite IH. reflexivity.
Qed.

Lemma replaceField_app_l (k : string) (v : json) (a b : list (string * json)) :
  In k (map fst a) -> replaceField k v (a ++ b) = (replaceField k v a ++ b)%list.
Proof.
  induction a as [|[k' v'] rest IH]; cbn [map fst In app replaceField]; [intros []|].
  destruct (String.eqb_spec k k') as [->|Hne]; [reflexivity|].
  intros [E|E]; [congruence|]. rewrite (IH E). reflexivity.
Qed.

Lemma replaceField_app_r (k : string) (v : json) (a b : list (string * json)) :
  ~ In k (map fst a) -> replaceField k v (a ++ b) = (a ++ replaceField k v b)%list.
Proof.
  induction a as [|[k' v'] rest IH]; cbn [map fst In app replaceField];
    [reflexivity|].
  intros H. destruct (String.eqb_spec k k') as [->|Hne].
  - exfalso. apply H. left. reflexivity.
  - rewrite IH; [reflexivity|]. intros E. apply H. right. exact E.
Qed.

Lemma getField_replaceField (k k' : string) (v : json)
      (fields : list (string * json)) :
  getField k' fields <> None ->
  getField k (replaceField k' v fields)
  = if String.eqb k k' then Some v else getField k fields.
Proof.
  induction fields as [|[k0 v0] rest IH]; cbn [getField replaceField];
    [congruence|].
  destruct (String.eqb_spec k' k0) as [->|Hne]; intros H; cbn [getField].
  - destruct (String.eqb k k0); reflexivity.
  - rewrite (IH H).
    destruct (String.eqb_spec k k0) as [->|_]; [|reflexivity].
    destruct (String.eqb_spec k0 k'); [congruence | reflexivity].
Qed.

Lemma getField_insertIndex (k : string) (i : N) (k' : string) (v : json)
      (fields : list (string * json)) :
  getField k' fields = None ->
  getField k (insertIndex i k' v fields)
  = if String.eqb k k' then Some v else getField k fields.
Proof.
  induction fields as [|[k0 v0] rest IH]; cbn [getField insertIndex].
  - reflexivity.
  - destruct (String.eqb_spec k' k0) as [->|Hne]; [discriminate|]. intros H.
    destruct (arrayIndex k0) as [j|]; [destruct (j <=? i)%N|];
      cbn [getField]; try reflexivity.
    rewrite (IH H).
    destruct (String.eqb_spec k k0) as [->|_]; [|reflexivity].
    destruct (String.eqb_spec k0 k'); [congruence | reflexivity].
Qed.

(** A read after an assignment. *)
Lemma getField_setProperty (k k' : string) (v : json)
      (fields : list (string * json)) :
  getField k (setProperty k' v fields)
  = if String.eqb k k' then Some v else getField k fields.
Proof.
  unfold setProperty. destruct (getField k' fields) as [x|] eqn:E.
  - apply getField_replaceField. congruence.
  - destruct (arrayIndex k') as [i|].
    + apply getField_insertIndex. exact E.
    + rewrite getField_app. cbn [getField].
      destruct (String.eqb_spec k k') as [->|_].
      * rewrite E. reflexivity.
      * destruct (getField k fields); reflexivity.
Qed.

Lemma insertIndex_keys_In (y : string) (i : N) (k : string) (v : json)
      (fields : list (string * json)) :
  In y (map fst (insertIndex i k v fields)) <-> y = k \/ In y (map fst fields).
Proof.
  induction fields as [|[k0 v0] rest IH]; cbn [insertIndex map fst In].
  - split; intros [E|E]; auto.
  - destruct (arrayIndex k0) as [j|]; [destruct (j <=? i)%N|];
      cbn [map fst In]; try rewrite IH; intuition congruence.
Qed.

Lemma NoDup_insertIndex (i : N) (k : string) (v : json)
      (fields : list (string * json)) :
  ~ In k (map fst fields) -> NoDup (map fst fields) ->
  NoDup (map fst (insertIndex i k v fields)).
Proof.
  induction fields as [|[k0 v0] rest IH]; cbn [insertIndex map fst In];
    intros Hk Hnd.
  - constructor; [intros [] | constructor].
  - apply NoDup_cons_iff in Hnd. destruct Hnd as [H0 Hnd].
    assert (Hnew : NoDup (k :: k0 :: map fst rest)).
    { constructor; [exact Hk|]. constructor; assumption. }
    destruct (arrayIndex k0) as [j|]; [destruct (j <=? i)%N|];
      cbn [map fst]; try exact Hnew.
    constructor.
    + rewrite insertIndex_keys_In. intros [E|E]; [|contradiction].
      apply Hk. left. exact E.
    + apply IH; [|exact Hnd]. intros E. apply Hk. right. exact E.
Qed.

Lemma NoDup_snoc (k : string) (keys : list string) :
  ~ In k keys -> NoDup keys -> NoDup (keys ++ [k]).
Proof.
  intros Hk Hnd. apply NoDup_app; [exact Hnd | constructor; [intros [] | constructor] |].
  intros a Ha [E|[]]. subst. contradiction.
Qed.

(** Assignment keeps the keys of an object distinct. *)
Lemma NoDup_setProperty (k : string) (v : json) (fields : list (string * json)) :
  NoDup (map fst fields) -> NoDup (map fst (setProperty k v fields)).
Proof.
  intros Hnd. unfold setProperty.
  destruct (getField k fields) as [x|] eqn:E.
  - rewrite replaceField_keys. exact Hnd.
  - apply getField_None_iff in E.
    destruct (arrayIndex k) as [i|].
    + apply NoDup_insertIndex; assumption.
    + rewrite map_app. apply NoDup_snoc; assumption.
Qed.


Lemma namedKey_not_index (k : string) :
  namedKey k = true -> arrayIndex k = None /\ k <> "__proto__".
Proof.
  unfold namedKey. destruct (arrayIndex k); [discriminate|].
  intros H. split; [reflexivity|]. intros ->. discriminate.
Qed.

Lemma indexKey_not_named (k : string) :
  isIndexKey k = true -> namedKey k = false /\ k <> "__proto__".
Proof.
  unfold isIndexKey, namedKey. destruct (arrayIndex k) eqn:E; [|discriminate].
  intros _. split; [reflexivity|]. intros ->. discriminate.
Qed.

Lemma insertIndex_app (i : N) (k : string) (v : json)
      (I N : list (string * json)) :
  Forall indexEntry I -> Forall namedEntry N ->
  insertIndex i k v (I ++ N) = (insertIndex i k v I ++ N)%list.
Proof.
  intros HI HN. induction HI as [|[k0 v0] rest H0 _ IH]; cbn [app insertIndex].
  - destruct HN as [|[k1 v1] N1 H1 _]; [reflexivity|]. cbn [insertIndex].
    apply namedKey_not_index in H1. cbn [fst] in H1. destruct H1 as [-> _].
    reflexivity.
  - destruct (arrayIndex k0) as [j|]; [destruct (j <=? i)%N|]; try reflexivity.
    rewrite IH. reflexivity.
Qed.

Lemma insertIndex_all_le (i : N) (k : string) (v : json)
      (I : list (string * json)) :
  Forall indexEntry I -> Forall (fun kv => (indexOf (fst kv) <= i)%N) I ->
  insertIndex i k v I = (I ++ [(k, v)])%list.
Proof.
  intros HI Hle. induction HI as [|[k0 v0] rest H0 _ IH]; cbn [app insertIndex];
    [reflexivity|].
  inversion Hle as [|? ? Hle0 Hrest]; subst. cbn [fst] in *.
  unfold indexEntry, isIndexKey in H0. unfold indexOf in Hle0. cbn [fst] in H0.
  destruct (arrayIndex k0) as [j|]; [|discriminate].
  apply N.leb_le in Hle0. rewrite Hle0, (IH Hrest). reflexivity.
Qed.

Lemma insertIndex_indexEntries (i : N) (k : string) (v : json)
      (I : list (string * json)) :
  isIndexKey k = true -> Forall indexEntry I ->
  Forall indexEntry (insertIndex i k v I).
Proof.
  intros Hk HI. induction HI as [|[k0 v0] rest H0 Hrest IH]; cbn [insertIndex].
  - constructor; [exact Hk | constructor].
  - destruct (arrayIndex k0) as [j|]; [destruct (j <=? i)%N|];
      repeat (constructor; try assumption).
Qed.

Lemma insertIndex_sorted (i : N) (k : string) (v : json)
      (I : list (string * json)) :
  arrayIndex k = Some i -> Forall indexEntry I ->
  StronglySorted leIndex (map fst I) ->
  StronglySorted leIndex (map fst (insertIndex i k v I)).
Proof.
  intros Hk HI. induction HI as [|[k0 v0] rest H0 Hrest IH];
    cbn [insertIndex map fst]; intros Hs.
  - constructor; constructor.
  - apply StronglySorted_inv in Hs. destruct Hs as [Hs Hall].
    assert (Hki : indexOf k = i) by (unfold indexOf; rewrite Hk; reflexivity).
    unfold indexEntry, isIndexKey in H0. cbn [fst] in H0.
    destruct (arrayIndex k0) as [j|] eqn:Ej; [|discriminate].
    assert (Hk0 : indexOf k0 = j) by (unfold indexOf; rewrite Ej; reflexivity).
    destruct (j <=? i)%N eqn:Hji; cbn [map fst].
    + constructor; [apply IH; exact Hs|].
      apply Forall_forall. intros y Hy. apply insertIndex_keys_In in Hy.
      destruct Hy as [->|Hy].
      * unfold leIndex. rewrite Hk0, Hki. apply N.leb_le. exact Hji.
      * rewrite Forall_forall in Hall. apply Hall. exact Hy.
    + apply N.leb_gt in Hji.
      constructor; [constructor; assumption|].
      constructor.
      * unfold leIndex. rewrite Hk0, Hki. lia.
      * rewrite Forall_forall in Hall |- *. intros y Hy.
        specialize (Hall y Hy). unfold leIndex in *. rewrite Hk0 in Hall.
        rewrite Hki. lia.
Qed.

(** Assigning fresh, distinct keys that are not array indices appends
    them in their order. *)
Lemma fold_assign_named (N acc : list (string * json)) :
  Forall namedEntry N -> NoDup (map fst N) ->
  (forall k, In k (map fst N) -> ~ In k (map fst acc)) ->
  fold_left Zod.assign N acc = (acc ++ N)%list.
Proof.
  revert acc. induction N as [|[k v] rest IH]; intros acc HN Hnd Hfresh;
    cbn [fold_left].
  - rewrite app_nil_r. reflexivity.
  - inversion HN as [|? ? Hk Hrest]; subst.
    cbn [map fst] in Hnd. apply NoDup_cons_iff in Hnd. destruct Hnd as [Hnk Hnd].
    apply namedKey_not_index in Hk. cbn [fst] in Hk. destruct Hk as [Hidx Hproto].
    assert (Hstep : Zod.assign acc (k, v) = (acc ++ [(k, v)])%list).
    { unfold Zod.assign. cbn [fst snd].
      destruct (String.eqb_spec k "__proto__"); [contradiction|].
      unfold setProperty.
      rewrite (proj2 (getField_None_iff k acc)), Hidx; [reflexivity|].
      apply Hfresh. left. reflexivity. }
    rewrite Hstep, IH; [rewrite <- app_assoc; reflexivity | assumption | assumption |].
    intros k' Hk'. rewrite map_app, in_app_iff. cbn [map fst In].
    intros [E|[E|[]]].
    + apply (Hfresh k'); [right; exact Hk' | exact E].
    + subst. contradiction.
Qed.

Lemma sorted_prefix_le (l1 l2 : list string) (b : string) :
  StronglySorted leIndex (l1 ++ b :: l2) -> Forall (fun a => leIndex a b) l1.
Proof.
  induction l1 as [|a l1 IH]; cbn [app]; intros H; [constructor|].
  apply StronglySorted_inv in H. destruct H as [Hs Hall].
  constructor; [|apply IH; exact Hs].
  rewrite Forall_forall in Hall. apply Hall. apply in_app_iff. right. left.
  reflexivity.
Qed.

(** Assigning fresh array indices in ascending order puts them, in that
    order, after the array indices that are there and before the other
    keys. *)
Lemma fold_assign_indices (I I0 N0 : list (string * json)) :
  Forall indexEntry (I0 ++ I) ->
  StronglySorted leIndex (map fst (I0 ++ I)) ->
  NoDup (map fst (I0 ++ I)) ->
  Forall namedEntry N0 ->
  fold_left Zod.assign I (I0 ++ N0)%list = (I0 ++ I ++ N0)%list.
Proof.
  revert I0. induction I as [|[k v] rest IH]; intros I0 Hidx Hs Hnd HN;
    cbn [fold_left app].
  - reflexivity.
  - assert (HI0 : Forall indexEntry I0) by (apply Forall_app in Hidx; tauto).
    assert (Hk : indexEntry (k, v)).
    { apply Forall_app in Hidx. destruct Hidx as [_ H].
      inversion H; assumption. }
    unfold indexEntry in Hk. cbn [fst] in Hk.
    destruct (indexKey_not_named k Hk) as [Hnamed Hproto].
    unfold isIndexKey in Hk. destruct (arrayIndex k) as [i|] eqn:Ei; [|discriminate].
    assert (Hfresh : getField k (I0 ++ N0)%list = None).
    { apply getField_None_iff. rewrite map_app, in_app_iff. intros [E|E].
      - rewrite map_app in Hnd. cbn [map fst] in Hnd.
        apply NoDup_remove_2 in Hnd. apply Hnd. apply in_app_iff. left. exact E.
      - apply in_map_iff in E. destruct E as ([k' v'] & <- & Hin).
        rewrite Forall_forall in HN. specialize (HN _ Hin).
        unfold namedEntry in HN. cbn [fst] in *. congruence. }
    assert (Hle : Forall (fun kv => (indexOf (fst kv) <= i)%N) I0).
    { rewrite map_app in Hs. cbn [map fst] in Hs.
      apply sorted_prefix_le in Hs. rewrite Forall_forall in Hs |- *.
      intros kv Hin. specialize (Hs (fst kv) (in_map fst _ _ Hin)).
      unfold leIndex in Hs. unfold indexOf in Hs at 2. rewrite Ei in Hs. exact Hs. }
    assert (Hstep : Zod.assign (I0 ++ N0)%list (k, v)
                    = ((I0 ++ [(k, v)]) ++ N0)%list).
    { unfold Zod.assign. cbn [fst snd].
      destruct (String.eqb_spec k "__proto__"); [contradiction|].
      unfold setProperty. rewrite Hfresh, Ei.
      rewrite (insertIndex_app _ _ _ _ _ HI0 HN).
      rewrite (insertIndex_all_le _ _ _ _ HI0 Hle). reflexivity. }
    rewrite Hstep, IH.
    + rewrite <- !app_assoc. reflexivity.
    + rewrite <- app_assoc. exact Hidx.
    + rewrite <- app_assoc. exact Hs.
    + rewrite <- app_assoc. exact Hnd.
    + exact HN.
Qed.

Lemma Forall_keys (P : string -> Prop) (l : list (string * json)) :
  Forall (fun kv => P (fst kv)) l <-> Forall P (map fst l).
Proof. symmetry. apply Forall_map. Qed.

Lemma same_keys_indexEntries (a b : list (string * json)) :
  map fst a = map fst b -> Forall indexEntry b -> Forall indexEntry a.
Proof.
  intros E H. unfold indexEntry in *.
  apply (Forall_keys (fun k => isIndexKey k = true)).
  rewrite E. apply (Forall_keys (fun k => isIndexKey k = true)). exact H.
Qed.

Lemma same_keys_namedEntries (a b : list (string * json)) :
  map fst a = map fst b -> Forall namedEntry b -> Forall namedEntry a.
Proof.
  intros E H. unfold namedEntry in *.
  apply (Forall_keys (fun k => namedKey k = true)).
  rewrite E. apply (Forall_keys (fun k => namedKey k = true)). exact H.
Qed.

(** One assignment of a key that is not declared keeps the shape of the
    object and the declared fields where they are. *)
Lemma assign_shaped (D I T : list (string * json)) (kv : string * json) :
  Forall namedEntry D -> shaped D I T -> ~ In (fst kv) (map fst D) ->
  exists I' T',
    Zod.assign (I ++ D ++ T)%list kv = (I' ++ D ++ T')%list /\ shaped D I' T'.
Proof.
  intros HD (HI & Hs & HT & Hdis & Hnd) Hk. destruct kv as [k v]. cbn [fst] in Hk.
  unfold Zod.assign. cbn [fst snd].
  destruct (String.eqb_spec k "__proto__") as [->|Hproto].
  { exists I, T. split; [reflexivity|]. repeat split; assumption. }
  pose proof (NoDup_setProperty k v _ Hnd) as Hnd'.
  unfold setProperty in *.
  destruct (getField k (I ++ D ++ T)%list) as [x|] eqn:E.
  - assert (Hin : In k (map fst (I ++ D ++ T)%list)).
    { apply getField_Some_In in E. apply (in_map fst) in E. exact E. }
    rewrite !map_app, !in_app_iff in Hin.
    destruct (in_dec string_dec k (map fst I)) as [HkI|HkI].
    + rewrite (replaceField_app_l _ _ _ _ HkI) in *.
      exists (replaceField k v I), T. split; [reflexivity|].
      repeat split; try assumption.
      * apply (same_keys_indexEntries _ I); [apply replaceField_keys | exact HI].
      * rewrite replaceField_keys. exact Hs.
    + destruct Hin as [?|[?|HkT]]; try contradiction.
      rewrite (replaceField_app_r _ _ _ _ HkI) in *.
      rewrite (replaceField_app_r _ _ _ _ Hk) in *.
      exists I, (replaceField k v T). split; [reflexivity|].
      repeat split; try assumption.
      * apply (same_keys_namedEntries _ T); [apply replaceField_keys | exact HT].
      * rewrite replaceField_keys. exact Hdis.
  - destruct (arrayIndex k) as [i|] eqn:Ei.
    + assert (HDT : Forall namedEntry (D ++ T)%list) by (apply Forall_app; tauto).
      rewrite (insertIndex_app _ _ _ _ _ HI HDT) in *.
      exists (insertIndex i k v I), T. split; [reflexivity|].
      repeat split; try assumption.
      * apply insertIndex_indexEntries; [|exact HI].
        unfold isIndexKey. rewrite Ei. reflexivity.
      * apply insertIndex_sorted; assumption.
    + exists I, (T ++ [(k, v)])%list. split; [rewrite <- !app_assoc; reflexivity|].
      rewrite <- !app_assoc in Hnd'.
      repeat split; try assumption.
      * apply Forall_app. split; [exact HT|]. constructor; [|constructor].
        unfold namedEntry, namedKey. cbn [fst]. rewrite Ei.
        destruct (String.eqb_spec k "__proto__"); [contradiction | reflexivity].
      * intros k'. rewrite map_app, in_app_iff. cbn [map fst In].
        intros [H|[H|[]]]; [apply Hdis; exact H | subst; exact Hk].
Qed.

Lemma fold_assign_shaped (D E : list (string * json)) :
  Forall namedEntry D ->
  (forall kv, In kv E -> ~ In (fst kv) (map fst D)) ->
  forall I T,
    shaped D I T ->
    exists I' T',
      fold_left Zod.assign E (I ++ D ++ T)%list = (I' ++ D ++ T')%list
      /\ shaped D I' T'.
Proof.
  intros HD. induction E as [|kv rest IH]; intros HE I T Hsh; cbn [fold_left].
  - exists I, T. split; [reflexivity | exact Hsh].
  - destruct (assign_shaped D I T kv HD Hsh) as (I1 & T1 & -> & Hsh1).
    { apply HE. left. reflexivity. }
    apply IH; [|exact Hsh1]. intros kv' Hin. apply HE. right. exact Hin.
Qed.

(** What a read finds after a run of assignments: the value assigned
    last under the key, or what was there. *)
Lemma getField_fold_assign (pairs obj : list (string * json)) (k : string) :
  getField k (fold_left Zod.assign pairs obj)
  = fold_left (fun r kv =>
                 if String.eqb (fst kv) "__proto__" then r
                 else if String.eqb k (fst kv) then Some (snd kv) else r)
              pairs (getField k obj).
Proof.
  revert obj. induction pairs as [|kv rest IH]; intros obj; cbn [fold_left].
  - reflexivity.
  - rewrite IH. f_equal. unfold Zod.assign.
    destruct (String.eqb (fst kv) "__proto__"); [reflexivity|].
    apply getField_setProperty.
Qed.

Lemma assigned_consistently (k : string) (v : json)
      (pairs : list (string * json)) (r0 : option json) :
  k <> "__proto__" ->
  (forall kv, In kv pairs -> fst kv = k -> snd kv = v) ->
  fold_left (fun r kv =>
               if String.eqb (fst kv) "__proto__" then r
               else if String.eqb k (fst kv) then Some (snd kv) else r)
            pairs r0
  = if existsb (fun kv => String.eqb k (fst kv)) pairs then Some v else r0.
Proof.
  intros Hproto. revert r0. induction pairs as [|kv rest IH]; intros r0 Hc;
    cbn [fold_left existsb].
  - reflexivity.
  - rewrite IH; [|intros kv' Hin; apply Hc; right; exact Hin].
    destruct (String.eqb_spec k (fst kv)) as [E|Hne]; cbn [orb].
    + destruct (String.eqb_spec (fst kv) "__proto__") as [E'|_]; [congruence|].
      rewrite (Hc kv (or_introl eq_refl) (eq_sym E)).
      destruct (existsb _ rest); reflexivity.
    + destruct (String.eqb (fst kv) "__proto__"); reflexivity.
Qed.

Lemma proto_never_assigned (pairs : list (string * json)) (r0 : option json) :
  fold_left (fun r kv =>
               if String.eqb (fst kv) "__proto__" then r
               else if String.eqb "__proto__" (fst kv) then Some (snd kv) else r)
            pairs r0 = r0.
Proof.
  revert r0. induction pairs as [|kv rest IH]; intros r0; cbn [fold_left];
    [reflexivity|].
  rewrite IH.
  destruct (String.eqb_spec (fst kv) "__proto__") as [E|Hne]; [reflexivity|].
  destruct (String.eqb_spec "__proto__" (fst kv)); [congruence | reflexivity].
Qed.

(* ===================================================================== *)
(** ** The parser of zod *)
(* ===================================================================== *)

Lemma includes_iff (keys : list string) (k : string) :
  Zod.includes keys k = true <-> In k keys.
Proof.
  unfold Zod.includes. rewrite existsb_exists. split.
  - intros (y & Hy & E). apply String.eqb_eq in E. subst. exact Hy.
  - intros H. exists k. split; [exact H | apply String.eqb_refl].
Qed.

Lemma includes_false_iff (keys : list string) (k : string) :
  Zod.includes keys k = false <-> ~ In k keys.
Proof.
  rewrite <- includes_iff. destruct (Zod.includes keys k); split; congruence.
Qed.

Lemma existsb_key_iff (k : string) (pairs : list (string * json)) :
  existsb (fun kv => String.eqb k (fst kv)) pairs = true <-> In k (map fst pairs).
Proof.
  rewrite existsb_exists, in_map_iff. split.
  - intros (kv & Hin & E). apply String.eqb_eq in E. exists kv. split; congruence.
  - intros (kv & E & Hin). exists kv. split; [exact Hin|].
    apply String.eqb_eq. congruence.
Qed.

Lemma firstThrown_In (rs : list Zod.ParseReturn) (e : JsError) :
  Zod.firstThrown rs = Some e -> In (Zod.THROWS e) rs.
Proof.
  induction rs as [|[v|issues|e'] rest IH]; cbn [Zod.firstThrown]; intros H.
  - discriminate.
  - right. apply IH. exact H.
  - right. apply IH. exact H.
  - injection H as ->. left. reflexivity.
Qed.

Lemma firstThrown_allOK (rs : list Zod.ParseReturn) :
  forallb Zod.isOK rs = true -> Zod.firstThrown rs = None.
Proof.
  induction rs as [|[v|issues|e'] rest IH]; cbn [Zod.firstThrown forallb Zod.isOK];
    try discriminate; try reflexivity.
  exact IH.
Qed.

Lemma firstThrown_none (rs : list Zod.ParseReturn) :
  (forall e, ~ In (Zod.THROWS e) rs) -> Zod.firstThrown rs = None.
Proof.
  intros H. destruct (Zod.firstThrown rs) as [e|] eqn:E; [|reflexivity].
  apply firstThrown_In in E. exfalso. exact (H e E).
Qed.

Lemma forallb_snd (rs : list (string * Zod.ParseReturn)) :
  forallb (fun kr => Zod.isOK (snd kr)) rs = forallb Zod.isOK (map snd rs).
Proof. induction rs as [|kr rest IH]; cbn; [reflexivity | rewrite IH; reflexivity]. Qed.

Lemma mergeArray_OK (rs : list Zod.ParseReturn) (v : json) :
  Zod.mergeArray rs = Zod.OK v
  <-> forallb Zod.isOK rs = true /\ v = JArr (Zod.validValues rs).
Proof.
  unfold Zod.mergeArray.
  destruct (forallb Zod.isOK rs) eqn:Hall.
  - rewrite (firstThrown_allOK _ Hall). split.
    + intros H. injection H as <-. split; reflexivity.
    + intros [_ ->]. reflexivity.
  - destruct (Zod.firstThrown rs); split; try discriminate; intros [H _];
      discriminate.
Qed.

Lemma mergeObject_OK (rs : list (string * Zod.ParseReturn)) (v : json) :
  Zod.mergeObject rs = Zod.OK v
  <-> forallb (fun kr => Zod.isOK (snd kr)) rs = true
      /\ v = Zod.finalObject (Zod.validFields rs).
Proof.
  unfold Zod.mergeObject.
  destruct (forallb (fun kr => Zod.isOK (snd kr)) rs) eqn:Hall.
  - rewrite forallb_snd in Hall. rewrite (firstThrown_allOK _ Hall). split.
    + intros H. injection H as <-. split; reflexivity.
    + intros [_ ->]. reflexivity.
  - destruct (Zod.firstThrown (map snd rs)); split; try discriminate;
      intros [H _]; discriminate.
Qed.

Lemma isOK_mergeArray (rs : list Zod.ParseReturn) :
  Zod.isOK (Zod.mergeArray rs) = forallb Zod.isOK rs.
Proof.
  unfold Zod.mergeArray. destruct (forallb Zod.isOK rs) eqn:Hall.
  - rewrite (firstThrown_allOK _ Hall). reflexivity.
  - destruct (Zod.firstThrown rs); reflexivity.
Qed.

Lemma isOK_mergeObject (rs : list (string * Zod.ParseReturn)) :
  Zod.isOK (Zod.mergeObject rs) = forallb (fun kr => Zod.isOK (snd kr)) rs.
Proof.
  unfold Zod.mergeObject.
  destruct (forallb (fun kr => Zod.isOK (snd kr)) rs) eqn:Hall.
  - rewrite forallb_snd in Hall. rewrite (firstThrown_allOK _ Hall). reflexivity.
  - destruct (Zod.firstThrown (map snd rs)); reflexivity.
Qed.

Lemma validFields_app (a b : list (string * Zod.ParseReturn)) :
  Zod.validFields (a ++ b) = (Zod.validFields a ++ Zod.validFields b)%list.
Proof.
  induction a as [|[k [v|i|e]] rest IH]; cbn [app Zod.validFields];
    try rewrite IH; reflexivity.
Qed.

Lemma validFields_keys (rs : list (string * Zod.ParseReturn)) (k : string) :
  In k (map fst (Zod.validFields rs)) -> In k (map fst rs).
Proof.
  induction rs as [|[k' [v|i|e]] rest IH]; cbn [Zod.validFields map fst In];
    intuition.
Qed.

(** The unknown pairs: each is valid and carries the value that the input
    has under its key, and there is one for every key of the input that
    the shape does not declare. *)
Lemma extraPairs_In (keys : list string) (fields : list (string * json))
      (k : string) (r : Zod.ParseReturn) :
  In (k, r) (Zod.extraPairs keys fields) ->
  exists v, r = Zod.OK v /\ getField k fields = Some v /\ ~ In k keys.
Proof.
  unfold Zod.extraPairs, Zod.extraKeys. intros H.
  apply in_flat_map in H. destruct H as (k' & Hk' & Hin).
  apply filter_In in Hk'. destruct Hk' as [_ Hinc].
  apply negb_true_iff, includes_false_iff in Hinc.
  destruct (getField k' fields) as [v|] eqn:E; [|destruct Hin].
  destruct Hin as [Heq|[]]. injection Heq as <- <-.
  exists v. repeat split; assumption.
Qed.

Lemma extraPairs_allOK (keys : list string) (fields : list (string * json)) :
  forallb (fun kr => Zod.isOK (snd kr)) (Zod.extraPairs keys fields) = true.
Proof.
  apply forallb_forall. intros [k r] Hin.
  apply extraPairs_In in Hin. destruct Hin as (v & -> & _). reflexivity.
Qed.

Lemma extraPairs_has (keys : list string) (fields : list (string * json))
      (k : string) (v : json) :
  getField k fields = Some v -> ~ In k keys ->
  In (k, v) (Zod.validFields (Zod.extraPairs keys fields)).
Proof.
  intros E Hk.
  assert (Hin : In (k, Zod.OK v) (Zod.extraPairs keys fields)).
  { unfold Zod.extraPairs. apply in_flat_map. exists k. split.
    - unfold Zod.extraKeys. apply filter_In. split.
      + apply getField_Some_In in E. apply (in_map fst) in E. exact E.
      + apply negb_true_iff, includes_false_iff. exact Hk.
    - rewrite E. left. reflexivity. }
  revert Hin. generalize (Zod.extraPairs keys fields).
  induction l as [|[k' [v'|i|e]] rest IH]; cbn [Zod.validFields In].
  - intros [].
  - intros [H|H]; [left; congruence | right; apply IH; exact H].
  - intros [H|H]; [discriminate | apply IH; exact H].
  - intros [H|H]; [discriminate | apply IH; exact H].
Qed.

Lemma validFields_In (rs : list (string * Zod.ParseReturn)) (k : string) (v : json) :
  In (k, v) (Zod.validFields rs) -> In (k, Zod.OK v) rs.
Proof.
  induction rs as [|[k' [v'|i|e]] rest IH]; cbn [Zod.validFields In].
  - intros [].
  - intros [H|H]; [left; congruence | right; apply IH; exact H].
  - intros H. right. apply IH. exact H.
  - intros H. right. apply IH. exact H.
Qed.

(** An object schema with passthrough accepts objects only, and returns
    the object made by assigning the declared fields it has validated and
    then the unknown fields of the input. *)
Lemma passthrough_object_OK (shape : list (string * Zod.ZodType))
      (path : list PathKey) (input : option json) (v : json) :
  Zod._parse (Zod.ZodObject shape Zod.Passthrough) path input = Zod.OK v ->
  exists fields declared,
    input = Some (JObj fields)
    /\ declared = map (fun ks => (fst ks,
                                  Zod._parse (snd ks) (path ++ [Key (fst ks)])%list
                                             (getField (fst ks) fields))) shape
    /\ forallb (fun kr => Zod.isOK (snd kr)) declared = true
    /\ v = Zod.finalObject
             (Zod.validFields declared
              ++ Zod.validFields (Zod.extraPairs (map fst shape) fields))%list.
Proof.
  cbn [Zod._parse]. destruct input as [[| | | | |fields]|]; try discriminate.
  intros H. apply mergeObject_OK in H. destruct H as [Hall ->].
  exists fields. eexists. split; [reflexivity|]. split; [reflexivity|].
  rewrite forallb_app in Hall. apply andb_true_iff in Hall. destruct Hall as [Hd _].
  split; [exact Hd|]. rewrite validFields_app. reflexivity.
Qed.

Lemma declared_keys (shape : list (string * Zod.ZodType))
      (f : string * Zod.ZodType -> Zod.ParseReturn) :
  map fst (map (fun ks => (fst ks, f ks)) shape) = map fst shape.
Proof. rewrite map_map. reflexivity. Qed.

(** Validation with a passthrough object schema keeps every field that the
    schema does not declare, but for [__proto__], which it never keeps. *)
Lemma passthrough_keepsOtherFields (shape : list (string * Zod.ZodType))
      (path : list PathKey) (r v : json) :
  Zod._parse (Zod.ZodObject shape Zod.Passthrough) path (Some r) = Zod.OK v ->
  keepsOtherFields (map fst shape) r v.
Proof.
  intros H. apply passthrough_object_OK in H.
  destruct H as (fields & declared & Hin & Hd & _ & ->).
  injection Hin as ->.
  exists fields. eexists. split; [reflexivity|]. split; [reflexivity|].
  split.
  - intros k Hk Hproto. rewrite getField_fold_assign. cbn [getField].
    destruct (getField k fields) as [x|] eqn:E.
    + rewrite (assigned_consistently k x); [|exact Hproto|].
      * rewrite (proj2 (existsb_key_iff k _)); [reflexivity|].
        rewrite map_app, in_app_iff. right.
        exact (in_map fst _ _ (extraPairs_has (map fst shape) fields k x E Hk)).
      * intros [k' y] Hy Hk'. cbn [fst snd] in *. subst k'.
        apply in_app_iff in Hy. destruct Hy as [Hy|Hy].
        -- exfalso. apply Hk. apply (in_map fst) in Hy.
           apply validFields_keys in Hy. subst declared.
           rewrite declared_keys in Hy. exact Hy.
        -- apply validFields_In, extraPairs_In in Hy.
           destruct Hy as (y' & Hy' & Hg & _). injection Hy' as <-. congruence.
    + rewrite (assigned_consistently k JNull); [|exact Hproto|].
      * destruct (existsb _ _) eqn:Ex; [|reflexivity]. exfalso.
        apply existsb_key_iff in Ex. rewrite map_app, in_app_iff in Ex.
        destruct Ex as [Ex|Ex].
        -- apply Hk. apply validFields_keys in Ex. subst declared.
           rewrite declared_keys in Ex. exact Ex.
        -- apply in_map_iff in Ex. destruct Ex as ([k' y] & Hk' & Hy).
           cbn [fst] in Hk'. subst k'.
           apply validFields_In, extraPairs_In in Hy.
           destruct Hy as (y' & _ & Hg & _). congruence.
      * intros [k' y] Hy Hk'. cbn [fst snd] in *. subst k'. exfalso.
        apply in_app_iff in Hy. destruct Hy as [Hy|Hy].
        -- apply Hk. apply (in_map fst) in Hy.
           apply validFields_keys in Hy. subst declared.
           rewrite declared_keys in Hy. exact Hy.
        -- apply validFields_In, extraPairs_In in Hy.
           destruct Hy as (y' & _ & Hg & _). congruence.
  - rewrite getField_fold_assign. apply proto_never_assigned.
Qed.

(** Induction on schemas, with the fields of an object schema. *)
Lemma ZodType_nested_ind (P : Zod.ZodType -> Prop) :
  P Zod.ZodString -> P Zod.ZodNumber -> P Zod.ZodBoolean ->
  (forall inner, P inner -> P (Zod.ZodNullable inner)) ->
  (forall element, P element -> P (Zod.ZodArray element)) ->
  (forall shape unknownKeys,
      Forall (fun ks => P (snd ks)) shape ->
      P (Zod.ZodObject shape unknownKeys)) ->
  (forall run, P (Zod.ZodEffects run)) ->
  forall t, P t.
Proof.
  intros HS HN HB Hnull Harr Hobj Heff.
  fix IH 1. intros [| | |inner|element|shape unknownKeys|run].
  - exact HS.
  - exact HN.
  - exact HB.
  - apply Hnull, IH.
  - apply Harr, IH.
  - apply Hobj.
    refine ((fix fields (sh : list (string * Zod.ZodType))
               : Forall (fun ks => P (snd ks)) sh :=
               match sh with
               | [] => Forall_nil _
               | ks :: rest => Forall_cons ks (IH (snd ks)) (fields rest)
               end) shape).
  - apply Heff.
Qed.

Lemma mapi_In {A B : Type} (f : nat -> A -> B) (l : list A) (r : B) :
  forall i, In r (Zod.mapi f i l) -> exists j x, In x l /\ r = f j x.
Proof.
  induction l as [|a rest IH]; intros i; cbn [Zod.mapi In]; [intros []|].
  intros [E|H].
  - exists i, a. split; [left; reflexivity | congruence].
  - destruct (IH _ H) as (j & x & Hx & E). exists j, x. split; [right|]; assumption.
Qed.

Lemma mergeArray_THROWS (rs : list Zod.ParseReturn) (e : JsError) :
  Zod.mergeArray rs = Zod.THROWS e -> In (Zod.THROWS e) rs.
Proof.
  unfold Zod.mergeArray. destruct (Zod.firstThrown rs) as [e'|] eqn:E.
  - intros H. injection H as <-. apply firstThrown_In. exact E.
  - destruct (forallb Zod.isOK rs); discriminate.
Qed.

Lemma mergeObject_THROWS (rs : list (string * Zod.ParseReturn)) (e : JsError) :
  Zod.mergeObject rs = Zod.THROWS e -> In (Zod.THROWS e) (map snd rs).
Proof.
  unfold Zod.mergeObject. destruct (Zod.firstThrown (map snd rs)) as [e'|] eqn:E.
  - intros H. injection H as <-. apply firstThrown_In. exact E.
  - destruct (forallb _ rs); discriminate.
Qed.

Lemma extraPairs_not_THROWS (keys : list string) (fields : list (string * json))
      (e : JsError) :
  ~ In (Zod.THROWS e) (map snd (Zod.extraPairs keys fields)).
Proof.
  intros H. apply in_map_iff in H. destruct H as ([k r] & E & Hin).
  cbn [snd] in E. subst r. apply extraPairs_In in Hin.
  destruct Hin as (v & Hv & _). discriminate.
Qed.

Lemma declared_In (shape : list (string * Zod.ZodType))
      (f : string * Zod.ZodType -> Zod.ParseReturn) (r : Zod.ParseReturn) :
  In r (map snd (map (fun ks => (fst ks, f ks)) shape)) ->
  exists ks, In ks shape /\ r = f ks.
Proof.
  rewrite map_map. cbn [snd]. intros H. apply in_map_iff in H.
  destruct H as (ks & E & Hin). exists ks. split; [exact Hin | congruence].
Qed.

Lemma structural_fields (shape : list (string * Zod.ZodType))
      (unknownKeys : Zod.UnknownKeys) :
  structural (Zod.ZodObject shape unknownKeys) = true ->
  Forall (fun k => namedKey k = true) (map fst shape)
  /\ distinct (map fst shape) = true
  /\ (forall ks, In ks shape -> structural (snd ks) = true).
Proof.
  cbn [structural]. intros H.
  apply andb_true_iff in H. destruct H as [H Hs].
  apply andb_true_iff in H. destruct H as [Hn Hd].
  split; [|split].
  - apply Forall_forall. rewrite forallb_forall in Hn. exact Hn.
  - exact Hd.
  - rewrite forallb_forall in Hs. exact Hs.
Qed.

(** A schema built without [ZodEffects] does not throw. *)
Lemma structural_never_throws (t : Zod.ZodType) :
  structural t = true ->
  forall path input e, Zod._parse t path input <> Zod.THROWS e.
Proof.
  induction t as [| | |inner IH|element IH|shape unknownKeys IH|run]
    using ZodType_nested_ind; intros Hs path input e.
  - destruct input as [[]|]; discriminate.
  - destruct input as [[| |[]| | |]|]; discriminate.
  - destruct input as [[]|]; discriminate.
  - cbn [structural] in Hs. cbn [Zod._parse].
    destruct input as [[]|]; try discriminate; apply IH; exact Hs.
  - cbn [structural] in Hs. cbn [Zod._parse].
    destruct input as [[| | | |items|]|]; try discriminate.
    intros H. apply mergeArray_THROWS in H.
    apply mapi_In in H. destruct H as (j & x & _ & E).
    exact (IH Hs _ _ _ (eq_sym E)).
  - apply structural_fields in Hs. destruct Hs as (_ & _ & Hs).
    cbn [Zod._parse]. destruct input as [[| | | | |fields]|]; try discriminate.
    assert (Hdecl : forall declared,
               declared = map (fun ks => (fst ks,
                                          Zod._parse (snd ks) (path ++ [Key (fst ks)])%list
                                                     (getField (fst ks) fields))) shape ->
               ~ In (Zod.THROWS e) (map snd declared)).
    { intros declared -> H. apply declared_In in H. destruct H as (ks & Hin & E).
      rewrite Forall_forall in IH.
      exact (IH ks Hin (Hs ks Hin) _ _ _ (eq_sym E)). }
    destruct unknownKeys; intros H; apply mergeObject_THROWS in H.
    + exact (Hdecl _ eq_refl H).
    + rewrite map_app, in_app_iff in H. destruct H as [H|H].
      * exact (Hdecl _ eq_refl H).
      * exact (extraPairs_not_THROWS _ _ _ H).
  - discriminate.
Qed.

Lemma forallb_false_In {A : Type} (f : A -> bool) (l : list A) :
  forallb f l = false -> exists x, In x l /\ f x = false.
Proof.
  induction l as [|a rest IH]; cbn [forallb]; [discriminate|].
  destruct (f a) eqn:E; cbn [andb].
  - intros H. destruct (IH H) as (x & Hx & Hf). exists x. split; [right|]; assumption.
  - intros _. exists a. split; [left; reflexivity | exact E].
Qed.

Lemma flat_map_nonempty {A B : Type} (f : A -> list B) (l : list A) (x : A) :
  In x l -> f x <> [] -> flat_map f l <> [].
Proof.
  induction l as [|a rest IH]; cbn [flat_map In]; [intros []|].
  intros [->|H] Hx E; apply app_eq_nil in E; destruct E as [E1 E2].
  - exact (Hx E1).
  - exact (IH H Hx E2).
Qed.

Lemma mergeArray_INVALID (rs : list Zod.ParseReturn) (issues : list ZodIssue) :
  Zod.mergeArray rs = Zod.INVALID issues ->
  Zod.firstThrown rs = None
  /\ forallb Zod.isOK rs = false
  /\ issues = flat_map Zod.issuesOf rs.
Proof.
  unfold Zod.mergeArray. destruct (Zod.firstThrown rs); [discriminate|].
  destruct (forallb Zod.isOK rs); [discriminate|].
  intros H. injection H as <-. repeat split.
Qed.

Lemma mergeObject_INVALID (rs : list (string * Zod.ParseReturn))
      (issues : list ZodIssue) :
  Zod.mergeObject rs = Zod.INVALID issues ->
  Zod.firstThrown (map snd rs) = None
  /\ forallb (fun kr => Zod.isOK (snd kr)) rs = false
  /\ issues = flat_map (fun kr => Zod.issuesOf (snd kr)) rs.
Proof.
  unfold Zod.mergeObject. destruct (Zod.firstThrown (map snd rs)); [discriminate|].
  destruct (forallb _ rs); [discriminate|].
  intros H. injection H as <-. repeat split.
Qed.

(** A schema built without [ZodEffects] that refuses its input names at
    least one issue. *)
Lemma structural_issues (t : Zod.ZodType) :
  structural t = true ->
  forall path input issues,
    Zod._parse t path input = Zod.INVALID issues -> issues <> [].
Proof.
  induction t as [| | |inner IH|element IH|shape unknownKeys IH|run]
    using ZodType_nested_ind; intros Hs path input issues.
  - destruct input as [[]|]; cbn; intros H; try discriminate;
      injection H as <-; discriminate.
  - destruct input as [[| |[]| | |]|]; cbn; intros H; try discriminate;
      injection H as <-; discriminate.
  - destruct input as [[]|]; cbn; intros H; try discriminate;
      injection H as <-; discriminate.
  - cbn [structural] in Hs. cbn [Zod._parse].
    destruct input as [[]|]; try discriminate; apply IH; exact Hs.
  - cbn [structural] in Hs. cbn [Zod._parse].
    destruct input as [[| | | |items|]|];
      try (intros H; injection H as <-; discriminate).
    intros H. apply mergeArray_INVALID in H. destruct H as (Hth & Hall & ->).
    apply forallb_false_In in Hall. destruct Hall as (r & Hr & Hok).
    apply (flat_map_nonempty _ _ r Hr).
    destruct r as [v|iss|e]; cbn [Zod.isOK Zod.issuesOf] in *; try discriminate.
    + apply mapi_In in Hr. destruct Hr as (j & x & _ & E).
      exact (IH Hs _ _ _ (eq_sym E)).
    + exfalso. apply mapi_In in Hr. destruct Hr as (j & x & _ & E).
      exact (structural_never_throws _ Hs _ _ _ (eq_sym E)).
  - pose proof Hs as Hobj.
    apply structural_fields in Hs. destruct Hs as (_ & _ & Hs).
    cbn [Zod._parse]. destruct input as [[| | | | |fields]|];
      try (intros H; injection H as <-; discriminate).
    assert (Hone : forall rs : list (string * Zod.ParseReturn),
               (forall kr, In kr rs ->
                           (exists v, snd kr = Zod.OK v)
                           \/ exists ks, In ks shape
                                         /\ snd kr = Zod._parse (snd ks)
                                                       (path ++ [Key (fst ks)])%list
                                                       (getField (fst ks) fields)) ->
               Zod.mergeObject rs = Zod.INVALID issues -> issues <> []).
    { intros rs Hrs H. apply mergeObject_INVALID in H. destruct H as (_ & Hall & ->).
      apply forallb_false_In in Hall. destruct Hall as (kr & Hkr & Hok).
      apply (flat_map_nonempty _ _ kr Hkr).
      destruct (Hrs kr Hkr) as [[v E]|(ks & Hin & E)].
      - rewrite E in Hok. discriminate.
      - rewrite Forall_forall in IH.
        destruct (snd kr) as [v|iss|e] eqn:Ekr; cbn [Zod.isOK Zod.issuesOf] in *;
          try discriminate.
        + exact (IH ks Hin (Hs ks Hin) _ _ _ (eq_sym E)).
        + exfalso. exact (structural_never_throws _ (Hs ks Hin) _ _ _ (eq_sym E)). }
    assert (Hdecl : forall kr,
               In kr (map (fun ks => (fst ks,
                                      Zod._parse (snd ks) (path ++ [Key (fst ks)])%list
                                                 (getField (fst ks) fields))) shape) ->
               exists ks, In ks shape
                          /\ snd kr = Zod._parse (snd ks) (path ++ [Key (fst ks)])%list
                                                 (getField (fst ks) fields)).
    { intros kr H. apply in_map_iff in H. destruct H as (ks & <- & Hin).
      exists ks. split; [exact Hin | reflexivity]. }
    destruct unknownKeys; apply Hone.
    + intros kr H. right. apply Hdecl. exact H.
    + intros [k r] H. apply in_app_iff in H. destruct H as [H|H].
      * right. apply Hdecl. exact H.
      * left. apply extraPairs_In in H. destruct H as (v & -> & _).
        exists v. reflexivity.
  - discriminate.
Qed.

Lemma distinct_NoDup (keys : list string) :
  distinct keys = true -> NoDup keys.
Proof.
  induction keys as [|k rest IH]; cbn [distinct]; intros H; constructor.
  - apply andb_true_iff in H. destruct H as [H _].
    apply negb_true_iff in H. intros Hin.
    assert (E : existsb (String.eqb k) rest = true).
    { apply existsb_exists. exists k. split; [exact Hin | apply String.eqb_refl]. }
    congruence.
  - apply andb_true_iff in H. apply IH, H.
Qed.

Lemma NoDup_app_disjoint {A : Type} (a b : list A) (x : A) :
  NoDup (a ++ b) -> In x a -> ~ In x b.
Proof.
  induction a as [|y a IH]; cbn [app In]; [intros _ []|].
  intros H [->|Hx] Hb; inversion H; subst.
  - match goal with N : ~ In _ _ |- _ => apply N end.
    apply in_or_app. right. exact Hb.
  - exact (IH ltac:(assumption) Hx Hb).
Qed.

Lemma filter_all {A : Type} (f : A -> bool) (l : list A) :
  (forall x, In x l -> f x = true) -> filter f l = l.
Proof.
  induction l as [|a rest IH]; cbn [filter]; intros H; [reflexivity|].
  rewrite (H a (or_introl eq_refl)). f_equal. apply IH.
  intros x Hx. apply H. right. exact Hx.
Qed.

Lemma filter_none {A : Type} (f : A -> bool) (l : list A) :
  (forall x, In x l -> f x = false) -> filter f l = [].
Proof.
  induction l as [|a rest IH]; cbn [filter]; intros H; [reflexivity|].
  rewrite (H a (or_introl eq_refl)). apply IH.
  intros x Hx. apply H. right. exact Hx.
Qed.


Lemma validFields_okPairs (fields : list (string * json)) :
  Zod.validFields (okPairs fields) = fields.
Proof.
  induction fields as [|[k v] rest IH]; [reflexivity|].
  cbn. f_equal. exact IH.
Qed.

Lemma okPairs_allOK (fields : list (string * json)) :
  forallb (fun kr => Zod.isOK (snd kr)) (okPairs fields) = true.
Proof.
  induction fields as [|[k v] rest IH]; [reflexivity | exact IH].
Qed.

Lemma okPairs_app (a b : list (string * json)) :
  okPairs (a ++ b) = (okPairs a ++ okPairs b)%list.
Proof. apply map_app. Qed.

Lemma validFields_allOK_keys (rs : list (string * Zod.ParseReturn)) :
  forallb (fun kr => Zod.isOK (snd kr)) rs = true ->
  map fst (Zod.validFields rs) = map fst rs.
Proof.
  induction rs as [|[k r] rest IH]; [reflexivity|].
  cbn [forallb snd]. intros H. apply andb_true_iff in H. destruct H as [Hr Hrest].
  destruct r; try discriminate. cbn. f_equal. exact (IH Hrest).
Qed.

(** Fields that were accepted are accepted again, unchanged, when they are
    read back from an object that holds them. *)
Lemma redeclare (shape : list (string * Zod.ZodType)) (path path' : list PathKey)
      (fields obj : list (string * json)) :
  Forall (fun ks => forall p x v,
              Zod._parse (snd ks) p x = Zod.OK v ->
              forall p', Zod._parse (snd ks) p' (Some v) = Zod.OK v) shape ->
  let declared := map (fun ks => (fst ks,
                                  Zod._parse (snd ks) (path ++ [Key (fst ks)])%list
                                             (getField (fst ks) fields))) shape in
  forallb (fun kr => Zod.isOK (snd kr)) declared = true ->
  (forall kv, In kv (Zod.validFields declared) ->
              getField (fst kv) obj = Some (snd kv)) ->
  map (fun ks => (fst ks,
                  Zod._parse (snd ks) (path' ++ [Key (fst ks)])%list
                             (getField (fst ks) obj))) shape
  = okPairs (Zod.validFields declared).
Proof.
  intros HP declared. subst declared.
  induction HP as [|[k s] rest Hs _ IH]; [reflexivity|].
  cbn [map fst snd forallb]. intros Hall Hobj.
  apply andb_true_iff in Hall. destruct Hall as [Hk Hrest].
  cbn [fst snd] in Hs.
  destruct (Zod._parse s (path ++ [Key k])%list (getField k fields)) as [w| |] eqn:E;
    try discriminate.
  cbn [Zod.validFields] in *. cbn [okPairs map fst snd].
  pose proof (Hobj (k, w) (or_introl eq_refl)) as Hw. cbn [fst snd] in Hw.
  rewrite Hw, (Hs _ _ _ E). f_equal.
  apply IH; [exact Hrest|].
  intros kv Hin. apply Hobj. right. exact Hin.
Qed.

Lemma flat_map_fields (obj L : list (string * json)) :
  (forall kv, In kv L -> getField (fst kv) obj = Some (snd kv)) ->
  flat_map (fun k => match getField k obj with
                     | Some v => [(k, Zod.OK v)]
                     | None => []
                     end) (map fst L)
  = okPairs L.
Proof.
  induction L as [|[k v] rest IH]; intros H; [reflexivity|].
  pose proof (H (k, v) (or_introl eq_refl)) as Hv. cbn [fst snd] in Hv.
  cbn [map flat_map fst]. rewrite Hv.
  cbn [snd app okPairs map fst]. f_equal. apply IH.
  intros kv Hin. apply H. right. exact Hin.
Qed.

(** The other keys of an object that zod built, in the object's order. *)
Lemma extraPairs_shaped (D I T : list (string * json)) :
  shaped D I T -> Forall namedEntry D ->
  Zod.extraPairs (map fst D) (I ++ D ++ T)%list = okPairs (I ++ T)%list.
Proof.
  intros (HI & _ & HT & Hdisj & Hnd) HD.
  unfold Zod.extraPairs, Zod.extraKeys.
  rewrite !map_app, !filter_app.
  rewrite (filter_all _ (map fst I)), (filter_none _ (map fst D)),
    (filter_all _ (map fst T)).
  - cbn [app]. rewrite <- map_app. apply flat_map_fields.
    intros [k v] Hin. cbn [fst snd]. apply In_getField; [exact Hnd|].
    apply in_app_iff in Hin. apply in_app_iff. destruct Hin as [Hin|Hin].
    + left. exact Hin.
    + right. apply in_app_iff. right. exact Hin.
  - intros k Hk. apply negb_true_iff, includes_false_iff. apply Hdisj, Hk.
  - intros k Hk. apply negb_false_iff, includes_iff. exact Hk.
  - intros k Hk. apply negb_true_iff, includes_false_iff. intros HkD.
    apply in_map_iff in Hk. destruct Hk as (kv & <- & HkI).
    apply in_map_iff in HkD. destruct HkD as (kd & E & HkD).
    rewrite Forall_forall in HI, HD.
    pose proof (HI _ HkI) as Hidx. pose proof (HD _ HkD) as Hnamed.
    unfold indexEntry in Hidx. unfold namedEntry in Hnamed.
    apply indexKey_not_named in Hidx. destruct Hidx as [Hidx _].
    rewrite E in Hnamed. congruence.
Qed.

(** An object that zod built is assigned property by property to itself. *)
Lemma fold_assign_rebuild (D I T : list (string * json)) :
  shaped D I T -> Forall namedEntry D ->
  fold_left Zod.assign (D ++ I ++ T)%list [] = (I ++ D ++ T)%list.
Proof.
  intros (HI & Hsorted & HT & Hdisj & Hnd) HD.
  assert (HndD : NoDup (map fst D)).
  { rewrite !map_app in Hnd. apply NoDup_app_remove_l in Hnd.
    apply NoDup_app_remove_r in Hnd. exact Hnd. }
  assert (HndI : NoDup (map fst I)).
  { rewrite map_app in Hnd. apply NoDup_app_remove_r in Hnd. exact Hnd. }
  assert (HndT : NoDup (map fst T)).
  { rewrite !map_app in Hnd. apply NoDup_app_remove_l in Hnd.
    apply NoDup_app_remove_l in Hnd. exact Hnd. }
  rewrite !fold_left_app.
  rewrite (fold_assign_named D []); [|exact HD|exact HndD|intros k _ []].
  cbn [app].
  pose proof (fold_assign_indices I [] D) as HIfold. cbn [app] in HIfold.
  rewrite HIfold; [|exact HI|exact Hsorted|exact HndI|exact HD].
  rewrite (fold_assign_named T (I ++ D)); [|exact HT|exact HndT|].
  - rewrite <- app_assoc. reflexivity.
  - intros k Hk Hin. rewrite app_assoc, map_app in Hnd.
    exact (NoDup_app_disjoint _ _ k Hnd Hin Hk).
Qed.

Lemma validValues_allOK (rs : list Zod.ParseReturn) (w : json) :
  In w (Zod.validValues rs) -> In (Zod.OK w) rs.
Proof.
  induction rs as [|r rest IH]; cbn [Zod.validValues]; [intros []|].
  destruct r as [v|iss|e]; cbn [In].
  - intros [->|H]; [left; reflexivity | right; exact (IH H)].
  - intros H. right. exact (IH H).
  - intros H. right. exact (IH H).
Qed.

Lemma mapi_accepted (f : nat -> json -> Zod.ParseReturn) (ws : list json) :
  (forall w, In w ws -> forall j, f j w = Zod.OK w) ->
  forall i,
    forallb Zod.isOK (Zod.mapi f i ws) = true
    /\ Zod.validValues (Zod.mapi f i ws) = ws.
Proof.
  induction ws as [|w rest IH]; intros H i; [split; reflexivity|].
  cbn [Zod.mapi]. rewrite (H w (or_introl eq_refl)).
  destruct (IH (fun x Hx => H x (or_intror Hx)) (S i)) as [Hall Hvals].
  cbn [forallb Zod.isOK Zod.validValues andb]. split; [exact Hall|].
  f_equal. exact Hvals.
Qed.

(** What a schema built without [ZodEffects] returns, it accepts and
    returns unchanged. *)
Lemma structural_reparse (t : Zod.ZodType) :
  structural t = true ->
  forall path input v,
    Zod._parse t path input = Zod.OK v ->
    forall path', Zod._parse t path' (Some v) = Zod.OK v.
Proof.
  induction t as [| | |inner IH|element IH|shape unknownKeys IH|run]
    using ZodType_nested_ind; intros Hs path input v.
  - destruct input as [[]|]; cbn; intros H; try discriminate;
      injection H as <-; reflexivity.
  - destruct input as [[| |[]| | |]|]; cbn; intros H; try discriminate;
      injection H as <-; reflexivity.
  - destruct input as [[]|]; cbn; intros H; try discriminate;
      injection H as <-; reflexivity.
  - cbn [structural] in Hs. cbn [Zod._parse]. intros H path'.
    assert (Hinner : Zod._parse inner path input = Zod.OK v \/ v = JNull).
    { destruct input as [[]|]; try (left; exact H).
      right. injection H as <-. reflexivity. }
    destruct Hinner as [Hinner| ->]; [|reflexivity].
    destruct v; try exact (IH Hs _ _ _ Hinner path'). reflexivity.
  - cbn [structural] in Hs. cbn [Zod._parse].
    destruct input as [[| | | |items|]|]; try discriminate.
    intros H path'. apply mergeArray_OK in H. destruct H as [Hall ->].
    apply mergeArray_OK.
    destruct (mapi_accepted
                (fun i item => Zod._parse element (path' ++ [Index i])%list (Some item))
                (Zod.validValues
                   (Zod.mapi (fun i item =>
                                Zod._parse element (path ++ [Index i])%list (Some item))
                             0 items))) with (i := 0%nat) as [Hok Hvals].
    { intros w Hw j. apply validValues_allOK in Hw.
      apply mapi_In in Hw. destruct Hw as (j' & x & _ & E).
      exact (IH Hs _ _ _ (eq_sym E) _). }
    split; [exact Hok | rewrite Hvals; reflexivity].
  - apply structural_fields in Hs. destruct Hs as (Hnamed & Hdistinct & Hs).
    apply distinct_NoDup in Hdistinct.
    assert (HP : Forall (fun ks => forall p x v,
                             Zod._parse (snd ks) p x = Zod.OK v ->
                             forall p', Zod._parse (snd ks) p' (Some v) = Zod.OK v)
                        shape).
    { rewrite Forall_forall in IH |- *. intros ks Hin. exact (IH ks Hin (Hs ks Hin)). }
    cbn [Zod._parse]. destruct input as [[| | | | |fields]|]; try discriminate.
    set (declared := map (fun ks => (fst ks,
                                     Zod._parse (snd ks) (path ++ [Key (fst ks)])%list
                                                (getField (fst ks) fields))) shape).
    assert (Hkeys : forallb (fun kr => Zod.isOK (snd kr)) declared = true ->
                    map fst (Zod.validFields declared) = map fst shape).
    { intros Hall. rewrite (validFields_allOK_keys _ Hall).
      apply declared_keys. }
    assert (HD : forallb (fun kr => Zod.isOK (snd kr)) declared = true ->
                 Forall namedEntry (Zod.validFields declared)).
    { intros Hall. apply (Forall_keys (fun k => namedKey k = true)).
      rewrite (Hkeys Hall). exact Hnamed. }
    destruct unknownKeys.
    + intros H path'. apply mergeObject_OK in H. destruct H as [Hall ->].
      unfold Zod.finalObject.
      rewrite (fold_assign_named _ []);
        [|exact (HD Hall)|exact (eq_ind_r (fun l => NoDup l) Hdistinct (Hkeys Hall))|intros k _ []].
      cbn [app Zod._parse].
      rewrite (redeclare shape path path' fields _ HP Hall).
      * apply mergeObject_OK. split; [apply okPairs_allOK|].
        rewrite validFields_okPairs. unfold Zod.finalObject.
        rewrite (fold_assign_named _ []);
          [reflexivity|exact (HD Hall)|exact (eq_ind_r (fun l => NoDup l) Hdistinct (Hkeys Hall))
           |intros k _ []].
      * intros [k w] Hin. apply In_getField; [|exact Hin].
        exact (eq_ind_r (fun l => NoDup l) Hdistinct (Hkeys Hall)).
    + intros H path'. apply mergeObject_OK in H. destruct H as [Hall ->].
      rewrite forallb_app in Hall. apply andb_true_iff in Hall.
      destruct Hall as [Hall _].
      rewrite validFields_app. unfold Zod.finalObject. rewrite fold_left_app.
      rewrite (fold_assign_named _ []);
        [|exact (HD Hall)|exact (eq_ind_r (fun l => NoDup l) Hdistinct (Hkeys Hall))|intros k _ []].
      cbn [app].
      set (D := Zod.validFields declared) in *.
      assert (Hshaped0 : shaped D [] []).
      { repeat split.
        - constructor.
        - constructor.
        - constructor.
        - intros k [].
        - cbn [app]. rewrite app_nil_r. rewrite (Hkeys Hall). exact Hdistinct. }
      destruct (fold_assign_shaped D
                  (Zod.validFields (Zod.extraPairs (map fst shape) fields))
                  (HD Hall)) with (I := @nil (string * json)) (T := @nil (string * json))
        as (I' & T' & Hfold & Hshaped).
      { intros [k w] Hin. cbn [fst]. apply validFields_In in Hin.
        apply extraPairs_In in Hin. destruct Hin as (_ & _ & _ & Hnot).
        rewrite (Hkeys Hall). exact Hnot. }
      { exact Hshaped0. }
      cbn [app] in Hfold. rewrite app_nil_r in Hfold. rewrite Hfold.
      cbn [Zod._parse].
      assert (Hnd : NoDup (map fst (I' ++ D ++ T'))) by apply Hshaped.
      rewrite (redeclare shape path path' fields _ HP Hall).
      * fold D. rewrite <- (Hkeys Hall). fold D.
        rewrite (extraPairs_shaped D I' T' Hshaped (HD Hall)).
        apply mergeObject_OK. split.
        -- rewrite <- okPairs_app. apply okPairs_allOK.
        -- rewrite <- okPairs_app, validFields_okPairs. unfold Zod.finalObject.
           exact (f_equal JObj (eq_sym (fold_assign_rebuild D I' T' Hshaped (HD Hall)))).
      * fold D. intros [k w] Hin. apply In_getField; [exact Hnd|].
        apply in_app_iff. right. apply in_app_iff. left. exact Hin.
  - discriminate.
Qed.

(* ===================================================================== *)
(** ** The declared fields of a validated object *)
(* ===================================================================== *)

Lemma NoDup_keys_functional {A : Type} (l : list (string * A)) (k : string) (a b : A) :
  NoDup (map fst l) -> In (k, a) l -> In (k, b) l -> a = b.
Proof.
  induction l as [|[k' x] rest IH]; cbn [map fst In]; [intros _ []|].
  intros Hnd Ha Hb. inversion Hnd as [|? ? Hnot Hrest]; subst.
  destruct Ha as [Ha|Ha], Hb as [Hb|Hb].
  - congruence.
  - exfalso. injection Ha as -> _. apply Hnot.
    exact (in_map fst _ _ Hb).
  - exfalso. injection Hb as -> _. apply Hnot.
    exact (in_map fst _ _ Ha).
  - exact (IH Hrest Ha Hb).
Qed.

(** A declared field of a validated object holds what the schema of the
    field returned for that field of the response. *)
Lemma passthrough_declared_value (shape : list (string * Zod.ZodType))
      (path : list PathKey) (r v : json) (k : string) (s : Zod.ZodType) :
  NoDup (map fst shape) -> k <> "__proto__" -> In (k, s) shape ->
  Zod._parse (Zod.ZodObject shape Zod.Passthrough) path (Some r) = Zod.OK v ->
  exists fields fields' w,
    r = JObj fields /\ v = JObj fields'
    /\ Zod._parse s (path ++ [Key k])%list (getField k fields) = Zod.OK w
    /\ getField k fields' = Some w.
Proof.
  intros Hnd Hproto Hks H. apply passthrough_object_OK in H.
  destruct H as (fields & declared & Hin & Hd & Hall & ->).
  injection Hin as ->.
  assert (Hdecl : In (k, Zod._parse s (path ++ [Key k])%list (getField k fields))
                     declared).
  { subst declared. apply in_map_iff. exists (k, s). split; [reflexivity | exact Hks]. }
  destruct (Zod._parse s (path ++ [Key k])%list (getField k fields)) as [w|iss|e] eqn:E.
  - exists fields. eexists. exists w.
    split; [reflexivity|]. split; [reflexivity|]. split; [exact E|].
    rewrite getField_fold_assign. cbn [getField].
    rewrite (assigned_consistently k w); [|exact Hproto|].
    + rewrite (proj2 (existsb_key_iff k _)); [reflexivity|].
      rewrite map_app, in_app_iff. left.
      rewrite (validFields_allOK_keys _ Hall). subst declared.
      rewrite declared_keys. exact (in_map fst _ _ Hks).
    + intros [k' y] Hy Hk'. cbn [fst snd] in *. subst k'.
      apply in_app_iff in Hy. destruct Hy as [Hy|Hy].
      * apply validFields_In in Hy.
        assert (Hnd' : NoDup (map fst declared)).
        { subst declared. rewrite declared_keys. exact Hnd. }
        pose proof (NoDup_keys_functional _ _ _ _ Hnd' Hy Hdecl) as Eq.
        congruence.
      * exfalso. apply validFields_In, extraPairs_In in Hy.
        destruct Hy as (_ & _ & _ & Hnot). apply Hnot.
        exact (in_map fst _ _ Hks).
  - exfalso. rewrite forallb_forall in Hall. specialize (Hall _ Hdecl). discriminate.
  - exfalso. rewrite forallb_forall in Hall. specialize (Hall _ Hdecl). discriminate.
Qed.

(** When the schema of every declared field returns its input as it is,
    validation changes no value of the object. *)
Lemma passthrough_sameValues (shape : list (string * Zod.ZodType))
      (path : list PathKey) (r v : json) :
  NoDup (map fst shape) ->
  (forall k s p x w, In (k, s) shape -> Zod._parse s p x = Zod.OK w -> x = Some w) ->
  Zod._parse (Zod.ZodObject shape Zod.Passthrough) path (Some r) = Zod.OK v ->
  sameValues r v.
Proof.
  intros Hnd Hleaf H.
  destruct (passthrough_keepsOtherFields _ _ _ _ H)
    as (fields & fields' & -> & -> & Hother & Hnone).
  exists fields, fields'. split; [reflexivity|]. split; [reflexivity|].
  split; [|exact Hnone].
  intros k _ Hproto.
  destruct (in_dec string_dec k (map fst shape)) as [Hk|Hk].
  - apply in_map_iff in Hk. destruct Hk as ([k' s] & E & Hks).
    cbn [fst] in E. subst k'.
    destruct (passthrough_declared_value _ _ _ _ k s Hnd Hproto Hks H)
      as (f & f' & w & Ef & Ef' & Hw & Hget).
    injection Ef as <-. injection Ef' as <-.
    rewrite Hget. symmetry. exact (Hleaf _ _ _ _ _ Hks Hw).
  - exact (Hother k Hk Hproto).
Qed.

(* ===================================================================== *)
(** ** What the default schemas accept *)
(* ===================================================================== *)

Lemma isOK_string (path : list PathKey) (x : option json) :
  Zod.isOK (Zod._parse Zod.string path x) = isString x.
Proof. destruct x as [[]|]; reflexivity. Qed.

Lemma isOK_nullable_string (path : list PathKey) (x : option json) :
  Zod.isOK (Zod._parse (Zod.nullable Zod.string) path x) = isNullableString x.
Proof. destruct x as [[]|]; reflexivity. Qed.

Lemma isOK_boolean (path : list PathKey) (x : option json) :
  Zod.isOK (Zod._parse Zod.boolean path x) = isBoolean x.
Proof. destruct x as [[]|]; reflexivity. Qed.

Lemma isOK_nullable_number (path : list PathKey) (x : option json) :
  Zod.isOK (Zod._parse (Zod.nullable Zod.number) path x) = isNullableNumber x.
Proof. destruct x as [[| |[]| | |]|]; reflexivity. Qed.

Lemma isOK_passthrough_object (shape : list (string * Zod.ZodType))
      (path : list PathKey) (fields : list (string * json)) :
  Zod.isOK (Zod._parse (Zod.ZodObject shape Zod.Passthrough) path
                       (Some (JObj fields)))
  = forallb (fun ks => Zod.isOK (Zod._parse (snd ks) (path ++ [Key (fst ks)])%list
                                            (getField (fst ks) fields))) shape.
Proof.
  cbn [Zod._parse]. rewrite isOK_mergeObject, forallb_app, extraPairs_allOK.
  rewrite andb_true_r.
  induction shape as [|ks rest IH]; [reflexivity|].
  cbn [map forallb snd]. rewrite IH. reflexivity.
Qed.

Lemma WorkspaceResponseSchema_isOK (path : list PathKey) (r : json) :
  Zod.isOK (Zod._parse WorkspaceResponseSchema path (Some r)) = validWorkspace r.
Proof.
  destruct r as [| | | | |fields]; try reflexivity.
  unfold WorkspaceResponseSchema, Zod.passthrough, Zod.object.
  rewrite isOK_passthrough_object. cbn [forallb fst snd validWorkspace].
  rewrite !isOK_string, isOK_nullable_string, andb_true_r, !andb_assoc.
  reflexivity.
Qed.

Lemma PaginationMetadataSchema_isOK (path : list PathKey) (x : option json) :
  Zod.isOK (Zod._parse PaginationMetadataSchema path x)
  = match x with
    | Some p => validPagination p
    | None => false
    end.
Proof.
  destruct x as [[| | | | |fields]|]; try reflexivity.
  unfold PaginationMetadataSchema, Zod.passthrough, Zod.object.
  rewrite isOK_passthrough_object. cbn [forallb fst snd validPagination].
  rewrite isOK_boolean, isOK_nullable_string, isOK_nullable_number,
    andb_true_r, !andb_assoc.
  reflexivity.
Qed.

Lemma forallb_mapi {A : Type} (f : nat -> A -> Zod.ParseReturn) (g : A -> bool)
      (l : list A) :
  (forall j x, Zod.isOK (f j x) = g x) ->
  forall i, forallb Zod.isOK (Zod.mapi f i l) = forallb g l.
Proof.
  intros H. induction l as [|a rest IH]; intros i; [reflexivity|].
  cbn [Zod.mapi forallb]. rewrite H, IH. reflexivity.
Qed.

Lemma workspaces_isOK (path : list PathKey) (x : option json) :
  Zod.isOK (Zod._parse (Zod.array WorkspaceResponseSchema) path x)
  = match x with
    | Some (JArr items) => forallb validWorkspace items
    | _ => false
    end.
Proof.
  destruct x as [[| | | |items|]|]; try reflexivity.
  unfold Zod.array. cbn [Zod._parse]. rewrite isOK_mergeArray.
  apply forallb_mapi. intros j w. apply WorkspaceResponseSchema_isOK.
Qed.

Lemma ListWorkspacesSchema_isOK (path : list PathKey) (r : json) :
  Zod.isOK (Zod._parse ListWorkspacesSchema path (Some r)) = validListWorkspaces r.
Proof.
  destruct r as [| | | | |fields]; try reflexivity.
  unfold ListWorkspacesSchema, Zod.passthrough, Zod.object.
  rewrite isOK_passthrough_object. cbn [forallb fst snd validListWorkspaces].
  rewrite workspaces_isOK, PaginationMetadataSchema_isOK, andb_true_r.
  reflexivity.
Qed.

Lemma default_schemas_structural :
  structural WorkspaceResponseSchema = true
  /\ structural PaginationMetadataSchema = true
  /\ structural ListWorkspacesSchema = true.
Proof. repeat split; vm_compute; reflexivity. Qed.

(** The outcome of a schema built without [ZodEffects]. *)
Lemma structural_safeParse (t : Zod.ZodType) (r : json) :
  structural t = true ->
  (Zod.isOK (Zod._parse t [] (Some r)) = true ->
   exists v, Zod._parse t [] (Some r) = Zod.OK v
             /\ Zod.safeParse t r = Return (Success v))
  /\ (Zod.isOK (Zod._parse t [] (Some r)) = false ->
      exists issue issues,
        Zod.safeParse t r = Return (Failure (ZodError (issue :: issues)))).
Proof.
  intros Hs. unfold Zod.safeParse.
  destruct (Zod._parse t [] (Some r)) as [v|iss|e] eqn:E; cbn [Zod.isOK]; split;
    try discriminate.
  - intros _. exists v. split; reflexivity.
  - intros _. pose proof (structural_issues t Hs _ _ _ E) as Hne.
    destruct iss as [|issue issues]; [contradiction|].
    exists issue, issues. reflexivity.
  - exfalso. exact (structural_never_throws t Hs _ _ _ E).
Qed.


(** The schemas of the fields of a workspace return their input as it is. *)
Lemma workspace_fields_unchanged (k : string) (s : Zod.ZodType)
      (p : list PathKey) (x : option json) (w : json) :
  In (k, s) [ ("id", Zod.string); ("name", Zod.string);
              ("slug", Zod.nullable Zod.string); ("tier", Zod.string);
              ("role", Zod.string); ("created_at", Zod.string) ] ->
  Zod._parse s p x = Zod.OK w -> x = Some w.
Proof.
  cbn [In]. intros Hin H.
  repeat (destruct Hin as [Hin|Hin];
          [injection Hin as <- <-; destruct x as [[]|]; cbn in H;
           try discriminate; injection H as <-; reflexivity|]).
  destruct Hin.
Qed.

Lemma pagination_fields_unchanged (k : string) (s : Zod.ZodType)
      (p : list PathKey) (x : option json) (w : json) :
  In (k, s) [ ("has_more", Zod.boolean);
              ("next_cursor", Zod.nullable Zod.string);
              ("total", Zod.nullable Zod.number) ] ->
  Zod._parse s p x = Zod.OK w -> x = Some w.
Proof.
  cbn [In]. intros Hin H.
  repeat (destruct Hin as [Hin|Hin];
          [injection Hin as <- <-; destruct x as [[| |[]| | |]|]; cbn in H;
           try discriminate; injection H as <-; reflexivity|]).
  destruct Hin.
Qed.

Lemma WorkspaceResponseSchema_sameValues (path : list PathKey) (r v : json) :
  Zod._parse WorkspaceResponseSchema path (Some r) = Zod.OK v -> sameValues r v.
Proof.
  apply passthrough_sameValues.
  - apply distinct_NoDup. reflexivity.
  - intros k s p x w. apply workspace_fields_unchanged.
Qed.

Lemma PaginationMetadataSchema_sameValues (path : list PathKey) (r v : json) :
  Zod._parse PaginationMetadataSchema path (Some r) = Zod.OK v -> sameValues r v.
Proof.
  apply passthrough_sameValues.
  - apply distinct_NoDup. reflexivity.
  - intros k s p x w. apply pagination_fields_unchanged.
Qed.

(** The items of a validated array, against the items of the response. *)
Lemma mapi_validValues (f : nat -> json -> Zod.ParseReturn) (items : list json) :
  forall i,
    forallb Zod.isOK (Zod.mapi f i items) = true ->
    Forall2 (fun x y => exists j, f j x = Zod.OK y)
            items (Zod.validValues (Zod.mapi f i items)).
Proof.
  induction items as [|x rest IH]; intros i; [constructor|].
  cbn [Zod.mapi forallb]. intros H. apply andb_true_iff in H.
  destruct H as [Hx Hrest].
  destruct (f i x) as [y|iss|e] eqn:E; try discriminate.
  cbn [Zod.validValues]. constructor; [exists i; exact E | exact (IH _ Hrest)].
Qed.

Lemma workspaces_array_OK (path : list PathKey) (x : option json) (w : json) :
  Zod._parse (Zod.array WorkspaceResponseSchema) path x = Zod.OK w ->
  exists items items',
    x = Some (JArr items) /\ w = JArr items'
    /\ Forall2 (fun a b => exists p, Zod._parse WorkspaceResponseSchema p (Some a)
                                     = Zod.OK b) items items'.
Proof.
  unfold Zod.array. cbn [Zod._parse].
  destruct x as [[| | | |items|]|]; try discriminate.
  intros H. apply mergeArray_OK in H. destruct H as [Hall ->].
  exists items. eexists. split; [reflexivity|]. split; [reflexivity|].
  apply mapi_validValues in Hall.
  eapply Forall2_impl; [|exact Hall].
  cbn beta. intros a b [j E]. eexists. exact E.
Qed.

(** A page accepted by [ListWorkspacesSchema]: its [data], its
    [pagination] and its other fields. *)
Lemma ListWorkspacesSchema_OK (path : list PathKey) (r v : json) :
  Zod._parse ListWorkspacesSchema path (Some r) = Zod.OK v ->
  keepsOtherFields listWorkspacesKeys r v
  /\ exists fields fields' items items' pagination pagination',
      r = JObj fields /\ v = JObj fields'
      /\ getField "data" fields = Some (JArr items)
      /\ getField "data" fields' = Some (JArr items')
      /\ Forall2 (fun a b => exists p, Zod._parse WorkspaceResponseSchema p (Some a)
                                       = Zod.OK b) items items'
      /\ getField "pagination" fields = Some pagination
      /\ getField "pagination" fields' = Some pagination'
      /\ (exists p, Zod._parse PaginationMetadataSchema p (Some pagination)
                    = Zod.OK pagination').
Proof.
  intros H. split; [exact (passthrough_keepsOtherFields _ _ _ _ H)|].
  assert (Hnd : NoDup (map fst [ ("data", Zod.array WorkspaceResponseSchema);
                                 ("pagination", PaginationMetadataSchema) ])).
  { apply distinct_NoDup. reflexivity. }
  destruct (passthrough_declared_value _ _ _ _ "data" _ Hnd ltac:(discriminate)
              (or_introl eq_refl) H)
    as (fields & fields' & w & -> & -> & Hdata & Hdata').
  destruct (passthrough_declared_value _ _ _ _ "pagination" _ Hnd ltac:(discriminate)
              (or_intror (or_introl eq_refl)) H)
    as (f & f' & pagination' & Ef & Ef' & Hpage & Hpage').
  injection Ef as <-. injection Ef' as <-.
  apply workspaces_array_OK in Hdata.
  destruct Hdata as (items & items' & Hitems & -> & Hall).
  destruct (getField "pagination" fields) as [pagination|] eqn:Ep;
    [|discriminate].
  exists fields, fields', items, items', pagination, pagination'.
  repeat split; try assumption.
  eexists. exact Hpage.
Qed.

Lemma ListWorkspacesSchema_keepsOtherListFields (path : list PathKey) (r v : json) :
  Zod._parse ListWorkspacesSchema path (Some r) = Zod.OK v ->
  keepsOtherListFields r v.
Proof.
  intros H. apply ListWorkspacesSchema_OK in H.
  destruct H as (Htop & fields & fields' & items & items' & pagination & pagination'
                 & -> & -> & Hd & Hd' & Hall & Hp & Hp' & (p & Hpage)).
  split; [exact Htop|].
  exists fields, fields', items, items', pagination, pagination'.
  repeat split; try assumption.
  - eapply Forall2_impl; [|exact Hall]. cbn beta. intros a b [q E].
    exact (passthrough_keepsOtherFields _ _ _ _ E).
  - exact (passthrough_keepsOtherFields _ _ _ _ Hpage).
Qed.

(* ===================================================================== *)
(** ** How the actions run *)
(* ===================================================================== *)

Section Runs.

Context {W : Type}.
Variable validateActionParameters :
  forall (P : Type), ActionParameters P -> option P -> Completion unit.
Variable safeValidateActionParameters :
  forall (P : Type), ActionParameters P -> option P -> option (SafeResult json).

Lemma listWorkspaces_run (client : Client W) parameters (s : Session W) :
  listWorkspaces validateActionParameters client parameters s =
  match validateActionParameters _ _ parameters with
  | Throw e => (Throw e, s)
  | Return _ =>
      (validated (parameters_schema parameters) ListWorkspacesSchema
                 (fst (get client (listWorkspacesUrl parameters) (world s))),
       mkSession (snd (get client (listWorkspacesUrl parameters) (world s)))
                 (issued s ++ [mkRequest ViaGet (listWorkspacesUrl parameters)]))
  end.
Proof.
  unfold listWorkspaces, listWorkspacesUrl, bind, call, client_get, ret, validated.
  destruct (validateActionParameters _ _ parameters); [|reflexivity].
  match goal with |- context [get client ?u ?w] => destruct (get client u w) as [[r|e] w'] end;
    cbn [fst snd]; [|reflexivity].
  destruct (isFalse (parameters_schema parameters)); reflexivity.
Qed.

Lemma getWorkspace_run (client : Client W) teamSlug parameters (s : Session W) :
  getWorkspace validateActionParameters client teamSlug parameters s =
  match validateActionParameters _ _ parameters with
  | Throw e => (Throw e, s)
  | Return _ =>
      (validated (parameters_schema parameters) WorkspaceResponseSchema
                 (fst (get client (getWorkspaceUrl teamSlug) (world s))),
       mkSession (snd (get client (getWorkspaceUrl teamSlug) (world s)))
                 (issued s ++ [mkRequest ViaGet (getWorkspaceUrl teamSlug)]))
  end.
Proof.
  unfold getWorkspace, getWorkspaceUrl, bind, call, client_get, ret, validated.
  destruct (validateActionParameters _ _ parameters); [|reflexivity].
  match goal with |- context [get client ?u ?w] => destruct (get client u w) as [[r|e] w'] end;
    cbn [fst snd]; [|reflexivity].
  destruct (isFalse (parameters_schema parameters)); reflexivity.
Qed.

Lemma safeListWorkspaces_run (client : Client W) parameters (s : Session W) :
  safeListWorkspaces safeValidateActionParameters client parameters s =
  match safeValidateActionParameters _ _ parameters with
  | Some r => (Return r, s)
  | None =>
      let answered :=
        mkSession (snd (safeGet client (listWorkspacesUrl parameters) (world s)))
                  (issued s ++ [mkRequest ViaSafeGet (listWorkspacesUrl parameters)]) in
      (safeValidated (parameters_schema parameters) ListWorkspacesSchema
                     (fst (safeGet client (listWorkspacesUrl parameters) (world s))),
       answered)
  end.
Proof.
  unfold safeListWorkspaces, listWorkspacesUrl, bind, call, client_safeGet, ret,
    safeValidated.
  destruct (safeValidateActionParameters _ _ parameters); [reflexivity|].
  match goal with |- context [safeGet client ?u ?w] =>
    destruct (safeGet client u w) as [[r|e] w'] end;
    cbn [fst snd]; [|reflexivity].
  destruct (isFalse (parameters_schema parameters)); reflexivity.
Qed.

Lemma safeGetWorkspace_run (client : Client W) teamSlug parameters (s : Session W) :
  safeGetWorkspace safeValidateActionParameters client teamSlug parameters s =
  match safeValidateActionParameters _ _ parameters with
  | Some r => (Return r, s)
  | None =>
      let answered :=
        mkSession (snd (safeGet client (getWorkspaceUrl teamSlug) (world s)))
                  (issued s ++ [mkRequest ViaSafeGet (getWorkspaceUrl teamSlug)]) in
      (safeValidated (parameters_schema parameters) WorkspaceResponseSchema
                     (fst (safeGet client (getWorkspaceUrl teamSlug) (world s))),
       answered)
  end.
Proof.
  unfold safeGetWorkspace, getWorkspaceUrl, bind, call, client_safeGet, ret,
    safeValidated.
  destruct (safeValidateActionParameters _ _ parameters); [reflexivity|].
  match goal with |- context [safeGet client ?u ?w] =>
    destruct (safeGet client u w) as [[r|e] w'] end;
    cbn [fst snd]; [|reflexivity].
  destruct (isFalse (parameters_schema parameters)); reflexivity.
Qed.

End Runs.





(* ===================================================================== *)
(** ** Properties of the actions *)
(* ===================================================================== *)

Section Properties.

Context {W : Type}.
Variable validateActionParameters :
  forall (P : Type), ActionParameters P -> option P -> Completion unit.
Variable safeValidateActionParameters :
  forall (P : Type), ActionParameters P -> option P -> option (SafeResult json).

Local Abbreviation listWorkspaces' := (listWorkspaces validateActionParameters).
Local Abbreviation getWorkspace' := (getWorkspace validateActionParameters).
Local Abbreviation safeListWorkspaces' := (safeListWorkspaces safeValidateActionParameters).
Local Abbreviation safeGetWorkspace' := (safeGetWorkspace safeValidateActionParameters).

(** C1. Schema override. Once the parameters are accepted and the client
    has answered the request of the action with the response [r]:
    with [schema: false] the action returns [r] as it is; with a custom
    schema [S] it returns what [S.parse(r)] returns, and throws the error
    of [S] when [r] does not match; with no schema it returns
    [ListWorkspacesSchema.parse(r)] for [listWorkspaces] and
    [WorkspaceResponseSchema.parse(r)] for [getWorkspace]. *)
Theorem schema_override (client : Client W) (s : Session W) (r : json) :
  (forall parameters,
      validateActionParameters _ _ parameters = Return tt ->
      fst (get client (listWorkspacesUrl parameters) (world s)) = Return r ->
      (parameters_schema parameters = SchemaFalse ->
       fst (listWorkspaces' client parameters s) = Return r)
      /\ (forall S, parameters_schema parameters = SchemaZod S ->
                    fst (listWorkspaces' client parameters s) = Zod.parse S r
                    /\ (forall e, Zod.safeParse S r = Return (Failure e) ->
                                  fst (listWorkspaces' client parameters s) = Throw e))
      /\ (parameters_schema parameters = SchemaUndefined ->
          fst (listWorkspaces' client parameters s)
          = Zod.parse ListWorkspacesSchema r))
  /\
  (forall teamSlug parameters,
      validateActionParameters _ _ parameters = Return tt ->
      fst (get client (getWorkspaceUrl teamSlug) (world s)) = Return r ->
      (parameters_schema parameters = SchemaFalse ->
       fst (getWorkspace' client teamSlug parameters s) = Return r)
      /\ (forall S, parameters_schema parameters = SchemaZod S ->
                    fst (getWorkspace' client teamSlug parameters s) = Zod.parse S r
                    /\ (forall e, Zod.safeParse S r = Return (Failure e) ->
                                  fst (getWorkspace' client teamSlug parameters s)
                                  = Throw e))
      /\ (parameters_schema parameters = SchemaUndefined ->
          fst (getWorkspace' client teamSlug parameters s)
          = Zod.parse WorkspaceResponseSchema r)).
Proof.
  split.
  - intros parameters Hv Hr. rewrite listWorkspaces_run, Hv. cbn [fst]. rewrite Hr.
    repeat split.
    + intros ->. reflexivity.
    + subst. rewrite H. reflexivity.
    + intros e He. rewrite H. cbn. unfold Zod.parse. rewrite He. reflexivity.
    + intros ->. reflexivity.
  - intros teamSlug parameters Hv Hr. rewrite getWorkspace_run, Hv. cbn [fst]. rewrite Hr.
    repeat split.
    + intros ->. reflexivity.
    + subst. rewrite H. reflexivity.
    + intros e He. rewrite H. cbn. unfold Zod.parse. rewrite He. reflexivity.
    + intros ->. reflexivity.
Qed.



(** C4. Parameters are validated before any request. When
    [validateActionParameters] throws, [listWorkspaces] and [getWorkspace]
    throw that error and leave the session as it was: no request has been
    handed to the client and the state behind the client is untouched.
    When [safeValidateActionParameters] returns a result, the safe
    variants return that result, again with the session as it was. *)
Theorem rejected_parameters_issue_no_request (client : Client W) (s : Session W) :
  (forall parameters e,
      validateActionParameters _ _ parameters = Throw e ->
      listWorkspaces' client parameters s = (Throw e, s))
  /\ (forall teamSlug parameters e,
         validateActionParameters _ _ parameters = Throw e ->
         getWorkspace' client teamSlug parameters s = (Throw e, s))
  /\ (forall parameters r,
         safeValidateActionParameters _ _ parameters = Some r ->
         safeListWorkspaces' client parameters s = (Return r, s))
  /\ (forall teamSlug parameters r,
         safeValidateActionParameters _ _ parameters = Some r ->
         safeGetWorkspace' client teamSlug parameters s = (Return r, s)).
Proof.
  repeat split.
  - intros parameters e He. rewrite listWorkspaces_run, He. reflexivity.
  - intros teamSlug parameters e He. rewrite getWorkspace_run, He. reflexivity.
  - intros parameters r Hr. rewrite safeListWorkspaces_run, Hr. reflexivity.
  - intros teamSlug parameters r Hr. rewrite safeGetWorkspace_run, Hr. reflexivity.
Qed.

(** C6. No retry. When the parameters are accepted, each of the four
    actions hands exactly one GET to the client: the requests of the
    session after the call are those before it followed by that single
    request, and the state behind the client has advanced by that one
    call. This holds for every client and every schema, so it does not
    depend on whether the request or the validation of the response
    succeeds. *)
Theorem exactly_one_request (client : Client W) (s : Session W) :
  (forall parameters,
      validateActionParameters _ _ parameters = Return tt ->
      let s' := snd (listWorkspaces' client parameters s) in
      issued s' = (issued s ++ [mkRequest ViaGet (listWorkspacesUrl parameters)])%list
      /\ List.length (issued s') = S (List.length (issued s))
      /\ world s' = snd (get client (listWorkspacesUrl parameters) (world s)))
  /\ (forall teamSlug parameters,
         validateActionParameters _ _ parameters = Return tt ->
         let s' := snd (getWorkspace' client teamSlug parameters s) in
         issued s' = (issued s ++ [mkRequest ViaGet (getWorkspaceUrl teamSlug)])%list
         /\ List.length (issued s') = S (List.length (issued s))
         /\ world s' = snd (get client (getWorkspaceUrl teamSlug) (world s)))
  /\ (forall parameters,
         safeValidateActionParameters _ _ parameters = None ->
         let s' := snd (safeListWorkspaces' client parameters s) in
         issued s'
         = (issued s ++ [mkRequest ViaSafeGet (listWorkspacesUrl parameters)])%list
         /\ List.length (issued s') = S (List.length (issued s))
         /\ world s' = snd (safeGet client (listWorkspacesUrl parameters) (world s)))
  /\ (forall teamSlug parameters,
         safeValidateActionParameters _ _ parameters = None ->
         let s' := snd (safeGetWorkspace' client teamSlug parameters s) in
         issued s'
         = (issued s ++ [mkRequest ViaSafeGet (getWorkspaceUrl teamSlug)])%list
         /\ List.length (issued s') = S (List.length (issued s))
         /\ world s' = snd (safeGet client (getWorkspaceUrl teamSlug) (world s))).
Proof.
  split; [|split; [|split]]; intros; subst s'.
  all: rewrite ?listWorkspaces_run, ?getWorkspace_run,
         ?safeListWorkspaces_run, ?safeGetWorkspace_run.
  all: rewrite H; cbn [snd issued world].
  all: rewrite length_app; cbn [List.length].
  all: repeat split; lia.
Qed.

(** C7. The actions are deterministic and keep no state of their own.
    Take two invocations of the same action with the same parameters (and
    the same team slug), possibly through different clients and from
    different sessions, that is after different histories. If the client
    answers the request of the action alike in both, the two invocations
    end alike: same returned value or same thrown error. *)
Theorem actions_deterministic (c1 c2 : Client W) (s1 s2 : Session W) :
  (forall parameters,
      fst (get c1 (listWorkspacesUrl parameters) (world s1))
      = fst (get c2 (listWorkspacesUrl parameters) (world s2)) ->
      fst (listWorkspaces' c1 parameters s1) = fst (listWorkspaces' c2 parameters s2))
  /\ (forall teamSlug parameters,
         fst (get c1 (getWorkspaceUrl teamSlug) (world s1))
         = fst (get c2 (getWorkspaceUrl teamSlug) (world s2)) ->
         fst (getWorkspace' c1 teamSlug parameters s1)
         = fst (getWorkspace' c2 teamSlug parameters s2))
  /\ (forall parameters,
         fst (safeGet c1 (listWorkspacesUrl parameters) (world s1))
         = fst (safeGet c2 (listWorkspacesUrl parameters) (world s2)) ->
         fst (safeListWorkspaces' c1 parameters s1)
         = fst (safeListWorkspaces' c2 parameters s2))
  /\ (forall teamSlug parameters,
         fst (safeGet c1 (getWorkspaceUrl teamSlug) (world s1))
         = fst (safeGet c2 (getWorkspaceUrl teamSlug) (world s2)) ->
         fst (safeGetWorkspace' c1 teamSlug parameters s1)
         = fst (safeGetWorkspace' c2 teamSlug parameters s2)).
Proof.
  repeat split.
  - intros parameters H. rewrite !listWorkspaces_run.
    destruct (validateActionParameters _ _ parameters); cbn [fst]; congruence.
  - intros teamSlug parameters H. rewrite !getWorkspace_run.
    destruct (validateActionParameters _ _ parameters); cbn [fst]; congruence.
  - intros parameters H. rewrite !safeListWorkspaces_run.
    destruct (safeValidateActionParameters _ _ parameters); cbn [fst]; congruence.
  - intros teamSlug parameters H. rewrite !safeGetWorkspace_run.
    destruct (safeValidateActionParameters _ _ parameters); cbn [fst]; congruence.
Qed.

(** C5, as amended. Once the parameters are accepted, [listWorkspaces]
    hands the client one GET for ["/workspaces"], followed by [?] and the
    serialized query when there is one; the query holds the cursor exactly
    when a non-empty cursor is supplied, and the limit exactly when a
    limit other than 0 and NaN is supplied; with neither supplied the URL
    is ["/workspaces"]. [getWorkspace] hands the client one GET for
    ["/workspaces/"] followed by the team slug. *)
Theorem request_paths (client : Client W) (s : Session W) :
  (forall parameters,
      validateActionParameters _ _ parameters = Return tt ->
      issued (snd (listWorkspaces' client parameters s))
      = (issued s ++ [mkRequest ViaGet (truthy_listWorkspacesUrl parameters)])%list)
  /\ (forall parameters name value,
         In (name, value) (queryPairs string_truthy number_truthy parameters)
         <-> (name = "cursor" /\ parameters_cursor parameters = Some value
              /\ value <> "")
             \/ (name = "limit"
                 /\ exists n, parameters_limit parameters = Some n
                              /\ number_truthy n = true
                              /\ value = number_toString n))
  /\ (forall parameters,
         parameters_cursor parameters = None ->
         parameters_limit parameters = None ->
         truthy_listWorkspacesUrl parameters = "/workspaces")
  /\ (forall teamSlug parameters,
         validateActionParameters _ _ parameters = Return tt ->
         issued (snd (getWorkspace' client teamSlug parameters s))
         = (issued s ++ [mkRequest ViaGet ("/workspaces/" ++ teamSlug)])%list).
Proof.
  split; [|split; [|split]].
  - intros parameters Hv. rewrite listWorkspaces_run, Hv. cbn [snd issued].
    rewrite listWorkspacesUrl_truthy. reflexivity.
  - intros parameters name value. apply queryPairs_truthy_In.
  - intros parameters Hc Hl. unfold truthy_listWorkspacesUrl, queryPairs.
    rewrite Hc, Hl. reflexivity.
  - intros teamSlug parameters Hv. rewrite getWorkspace_run, Hv. reflexivity.
Qed.

(** C8. Falsy pagination values are dropped. With [cursor: ""] the
    request of [listWorkspaces] and of [safeListWorkspaces] goes to the
    URL computed without a cursor; with [limit: 0] it goes to the URL
    computed without a limit; and when each of the two is omitted or
    falsy in that way, the request goes to ["/workspaces"] with no query
    string, as it does when the parameters are omitted altogether. *)
Theorem falsy_pagination_dropped (client : Client W) (s : Session W) :
  (forall sch lim,
      let given := Some (mkListWorkspacesParameters sch (Some "") lim) in
      let omitted := Some (mkListWorkspacesParameters sch None lim) in
      (validateActionParameters _ _ given = Return tt ->
       issued (snd (listWorkspaces' client given s))
       = (issued s ++ [mkRequest ViaGet (listWorkspacesUrl omitted)])%list)
      /\ (safeValidateActionParameters _ _ given = None ->
          issued (snd (safeListWorkspaces' client given s))
          = (issued s ++ [mkRequest ViaSafeGet (listWorkspacesUrl omitted)])%list))
  /\ (forall sch cur,
         let given := Some (mkListWorkspacesParameters sch cur (Some (NumInt 0))) in
         let omitted := Some (mkListWorkspacesParameters sch cur None) in
         (validateActionParameters _ _ given = Return tt ->
          issued (snd (listWorkspaces' client given s))
          = (issued s ++ [mkRequest ViaGet (listWorkspacesUrl omitted)])%list)
         /\ (safeValidateActionParameters _ _ given = None ->
             issued (snd (safeListWorkspaces' client given s))
             = (issued s ++ [mkRequest ViaSafeGet (listWorkspacesUrl omitted)])%list))
  /\ (forall parameters,
         parameters_cursor parameters = None \/ parameters_cursor parameters = Some "" ->
         parameters_limit parameters = None
         \/ parameters_limit parameters = Some (NumInt 0) ->
         listWorkspacesUrl parameters = "/workspaces"
         /\ listWorkspacesUrl parameters = listWorkspacesUrl None
         /\ (validateActionParameters _ _ parameters = Return tt ->
             issued (snd (listWorkspaces' client parameters s))
             = (issued s ++ [mkRequest ViaGet "/workspaces"])%list)
         /\ (safeValidateActionParameters _ _ parameters = None ->
             issued (snd (safeListWorkspaces' client parameters s))
             = (issued s ++ [mkRequest ViaSafeGet "/workspaces"])%list)).
Proof.
  split; [|split].
  - intros sch lim given omitted. split; intros Hv.
    + rewrite listWorkspaces_run, Hv. reflexivity.
    + rewrite safeListWorkspaces_run, Hv. reflexivity.
  - intros sch cur given omitted.
    assert (Hu : listWorkspacesUrl given = listWorkspacesUrl omitted) by reflexivity.
    split; intros Hv.
    + rewrite listWorkspaces_run, Hv. cbn [snd issued]. rewrite Hu. reflexivity.
    + rewrite safeListWorkspaces_run, Hv. cbn [snd issued]. rewrite Hu. reflexivity.
  - intros parameters Hc Hl.
    assert (Hu : listWorkspacesUrl parameters = "/workspaces").
    { unfold listWorkspacesUrl, appendCursor, appendLimit.
      destruct Hc as [-> | ->]; destruct Hl as [-> | ->]; reflexivity. }
    split; [exact Hu|]. split; [rewrite Hu; reflexivity|].
    split; intros Hv.
    + rewrite listWorkspaces_run, Hv. cbn [snd issued]. rewrite Hu. reflexivity.
    + rewrite safeListWorkspaces_run, Hv. cbn [snd issued]. rewrite Hu. reflexivity.
Qed.

(** C9, as amended. The default schemas keep the unknown fields other
    than [__proto__]. When the caller passes no schema and [getWorkspace]
    returns [v] for the response [r], both are objects, every key other
    than id, name, slug, tier, role, created_at and [__proto__] has in [v]
    the value it has in [r], and [v] has no own key [__proto__]. When
    [listWorkspaces] returns [v] for the response [r], the same holds at
    the top level for the keys other than data and pagination, in the
    pagination object for the keys other than has_more, next_cursor and
    total, and in each workspace of data. *)
Theorem default_schema_keeps_unknown_fields (client : Client W) (s : Session W)
        (r v : json) :
  (forall teamSlug parameters,
      parameters_schema parameters = SchemaUndefined ->
      fst (get client (getWorkspaceUrl teamSlug) (world s)) = Return r ->
      fst (getWorkspace' client teamSlug parameters s) = Return v ->
      keepsOtherFields workspaceKeys r v)
  /\ (forall parameters,
         parameters_schema parameters = SchemaUndefined ->
         fst (get client (listWorkspacesUrl parameters) (world s)) = Return r ->
         fst (listWorkspaces' client parameters s) = Return v ->
         keepsOtherListFields r v).
Proof.
  split.
  - intros teamSlug parameters Hs Hr. rewrite getWorkspace_run.
    destruct (validateActionParameters _ _ parameters); [|discriminate].
    cbn [fst]. rewrite Hr, Hs. cbn [validated isFalse orElse].
    unfold Zod.parse, Zod.safeParse.
    destruct (Zod._parse WorkspaceResponseSchema [] (Some r)) as [v'| |] eqn:E;
      try discriminate.
    intros Hv. injection Hv as <-.
    exact (passthrough_keepsOtherFields _ _ _ _ E).
  - intros parameters Hs Hr. rewrite listWorkspaces_run.
    destruct (validateActionParameters _ _ parameters); [|discriminate].
    cbn [fst]. rewrite Hr, Hs. cbn [validated isFalse orElse].
    unfold Zod.parse, Zod.safeParse.
    destruct (Zod._parse ListWorkspacesSchema [] (Some r)) as [v'| |] eqn:E;
      try discriminate.
    intros Hv. injection Hv as <-.
    exact (ListWorkspacesSchema_keepsOtherListFields _ _ _ E).
Qed.

(** C10. The team slug goes into the path as it is. Once the parameters
    are accepted, [getWorkspace] and [safeGetWorkspace] hand the client
    the path ["/workspaces/"] followed by the team slug, unencoded. So
    the slug ["a/b"] gives ["/workspaces/a/b"], which is not
    ["/workspaces/"] plus a single path segment, and the slug ["x?y=1"]
    gives a URL whose query string is ["y=1"]; a plain slug such as
    ["acme"] gives a single segment. *)
Theorem teamSlug_not_encoded (client : Client W) (s : Session W) :
  (forall teamSlug parameters,
      validateActionParameters _ _ parameters = Return tt ->
      issued (snd (getWorkspace' client teamSlug parameters s))
      = (issued s ++ [mkRequest ViaGet ("/workspaces/" ++ teamSlug)])%list)
  /\ (forall teamSlug parameters,
         safeValidateActionParameters _ _ parameters = None ->
         issued (snd (safeGetWorkspace' client teamSlug parameters s))
         = (issued s ++ [mkRequest ViaSafeGet ("/workspaces/" ++ teamSlug)])%list)
  /\ (forall parameters,
         validateActionParameters _ _ parameters = Return tt ->
         exists path,
           issued (snd (getWorkspace' client "a/b" parameters s))
           = (issued s ++ [mkRequest ViaGet path])%list
           /\ path = "/workspaces/a/b" /\ singleSegmentPath path = false)
  /\ (forall parameters,
         safeValidateActionParameters _ _ parameters = None ->
         exists path,
           issued (snd (safeGetWorkspace' client "a/b" parameters s))
           = (issued s ++ [mkRequest ViaSafeGet path])%list
           /\ path = "/workspaces/a/b" /\ singleSegmentPath path = false)
  /\ (forall parameters,
         validateActionParameters _ _ parameters = Return tt ->
         exists path,
           issued (snd (getWorkspace' client "x?y=1" parameters s))
           = (issued s ++ [mkRequest ViaGet path])%list
           /\ queryString path = Some "y=1" /\ singleSegmentPath path = false)
  /\ (forall parameters,
         safeValidateActionParameters _ _ parameters = None ->
         exists path,
           issued (snd (safeGetWorkspace' client "x?y=1" parameters s))
           = (issued s ++ [mkRequest ViaSafeGet path])%list
           /\ queryString path = Some "y=1" /\ singleSegmentPath path = false)
  /\ singleSegmentPath (getWorkspaceUrl "acme") = true
  /\ singleSegmentPath (getWorkspaceUrl "a#b") = false.
Proof.
  repeat match goal with |- _ /\ _ => split end; try reflexivity.
  - intros teamSlug parameters Hv. rewrite getWorkspace_run, Hv. reflexivity.
  - intros teamSlug parameters Hv. rewrite safeGetWorkspace_run, Hv. reflexivity.
  - intros parameters Hv. rewrite getWorkspace_run, Hv.
    eexists. split; [reflexivity|]. split; reflexivity.
  - intros parameters Hv. rewrite safeGetWorkspace_run, Hv.
    eexists. split; [reflexivity|]. split; reflexivity.
  - intros parameters Hv. rewrite getWorkspace_run, Hv.
    eexists. split; [reflexivity|]. split; reflexivity.
  - intros parameters Hv. rewrite safeGetWorkspace_run, Hv.
    eexists. split; [reflexivity|]. split; reflexivity.
Qed.

End Properties.


(* ===================================================================== *)
(** ** The properties at concrete inputs *)
(* ===================================================================== *)



(** [listWorkspaces(client, { limit: 0 })] asks for ["/workspaces"], where
    the specification has ["/workspaces?limit=0"]. *)
Example limit_zero_request :
  issued (snd (listWorkspaces validateAny sampleClient
                 (Some (mkListWorkspacesParameters SchemaUndefined None
                                                   (Some (NumInt 0))))
                 fresh))
  = [mkRequest ViaGet "/workspaces"]
  /\ spec_listWorkspacesUrl
       (Some (mkListWorkspacesParameters SchemaUndefined None (Some (NumInt 0))))
     = "/workspaces?limit=0".
Proof. split; reflexivity. Qed.

(** C5, as stated, fails: with [limit: 0] supplied, the request of
    [listWorkspaces] is not the GET whose query holds the limit. *)
Lemma listWorkspaces_limit_zero_not_in_query :
  issued (snd (listWorkspaces validateAny sampleClient
                 (Some (mkListWorkspacesParameters SchemaUndefined None
                                                   (Some (NumInt 0))))
                 fresh))
  <> [mkRequest ViaGet
        (spec_listWorkspacesUrl
           (Some (mkListWorkspacesParameters SchemaUndefined None
                                             (Some (NumInt 0)))))].
Proof. vm_compute. discriminate. Qed.

Lemma schema_override_witness :
  fst (listWorkspaces validateAny sampleClient
         (Some (mkListWorkspacesParameters SchemaFalse None None)) fresh)
  = Return acmePage
  /\ fst (listWorkspaces validateAny sampleClient None fresh)
     = Zod.parse ListWorkspacesSchema acmePage
  /\ fst (getWorkspace validateAny sampleClient "acme"
            (Some (mkGetWorkspaceParameters (SchemaZod idOnly))) fresh)
     = Zod.parse idOnly acme
  /\ fst (getWorkspace validateAny sampleClient "acme"
            (Some (mkGetWorkspaceParameters (SchemaZod Zod.number))) fresh)
     = Throw (ZodError [InvalidType "number" "object" []]).
Proof.
  destruct (schema_override validateAny sampleClient fresh acmePage) as [HL _].
  destruct (schema_override validateAny sampleClient fresh acme) as [_ HG].
  split; [|split; [|split]].
  - apply (HL (Some (mkListWorkspacesParameters SchemaFalse None None)));
      reflexivity.
  - apply (HL None); reflexivity.
  - apply (HG "acme" (Some (mkGetWorkspaceParameters (SchemaZod idOnly))));
      reflexivity.
  - destruct (HG "acme" (Some (mkGetWorkspaceParameters (SchemaZod Zod.number)))
                 eq_refl eq_refl) as (_ & HS & _).
    apply (HS Zod.number eq_refl). reflexivity.
Defined.





Lemma rejected_parameters_issue_no_request_witness :
  listWorkspaces validateBuiltin sampleClient
    (Some (mkListWorkspacesParameters (SchemaZod idOnly) (Some "c1") None)) fresh
  = (Throw (Error "Invalid schema"), fresh)
  /\ safeGetWorkspace safeValidateBuiltin sampleClient "acme"
       (Some (mkGetWorkspaceParameters (SchemaZod idOnly))) fresh
     = (Return (Failure (Error "Invalid schema")), fresh).
Proof.
  destruct (rejected_parameters_issue_no_request
              validateBuiltin safeValidateBuiltin sampleClient fresh)
    as (HL & _ & _ & HG).
  split.
  - apply HL. reflexivity.
  - apply HG. reflexivity.
Defined.

Lemma exactly_one_request_witness :
  issued (snd (listWorkspaces validateAny sampleClient
                 (Some (mkListWorkspacesParameters SchemaUndefined (Some "c1")
                                                   (Some (NumInt 20))))
                 fresh))
  = [mkRequest ViaGet "/workspaces?cursor=c1&limit=20"]
  /\ issued (snd (safeGetWorkspace safeValidateAny sampleClient "broken" None
                    (mkSession 1%nat [mkRequest ViaGet "/workspaces"])))
     = [mkRequest ViaGet "/workspaces"; mkRequest ViaSafeGet "/workspaces/broken"].
Proof.
  destruct (exactly_one_request validateAny safeValidateAny sampleClient fresh)
    as (HL & _ & _ & _).
  destruct (exactly_one_request validateAny safeValidateAny sampleClient
              (mkSession 1%nat [mkRequest ViaGet "/workspaces"]))
    as (_ & _ & _ & HG).
  split.
  - apply (HL (Some (mkListWorkspacesParameters SchemaUndefined (Some "c1")
                                                (Some (NumInt 20))))).
    reflexivity.
  - apply (HG "broken" None). reflexivity.
Defined.

Lemma actions_deterministic_witness :
  fst (getWorkspace validateAny sampleClient "acme" None fresh)
  = fst (getWorkspace validateAny sampleClient "acme" None
           (mkSession 2%nat [mkRequest ViaGet "/workspaces";
                             mkRequest ViaGet "/workspaces/acme"]))
  /\ fst (safeListWorkspaces safeValidateAny sampleClient None fresh)
     = fst (safeListWorkspaces safeValidateAny sampleClient None
              (mkSession 1%nat [mkRequest ViaSafeGet "/workspaces"])).
Proof.
  split.
  - apply (actions_deterministic validateAny safeValidateAny sampleClient sampleClient
             fresh (mkSession 2%nat [mkRequest ViaGet "/workspaces";
                                     mkRequest ViaGet "/workspaces/acme"])).
    reflexivity.
  - apply (actions_deterministic validateAny safeValidateAny sampleClient sampleClient
             fresh (mkSession 1%nat [mkRequest ViaSafeGet "/workspaces"])).
    reflexivity.
Defined.

Lemma request_paths_witness :
  issued (snd (listWorkspaces validateAny sampleClient
                 (Some (mkListWorkspacesParameters SchemaUndefined (Some "a b")
                                                   (Some (NumInt 0))))
                 fresh))
  = [mkRequest ViaGet "/workspaces?cursor=a+b"]
  /\ truthy_listWorkspacesUrl
       (Some (mkListWorkspacesParameters SchemaFalse None None)) = "/workspaces"
  /\ issued (snd (getWorkspace validateAny sampleClient "acme" None fresh))
     = [mkRequest ViaGet "/workspaces/acme"].
Proof.
  destruct (request_paths validateAny sampleClient fresh) as (HL & _ & HN & HG).
  split; [|split].
  - apply (HL (Some (mkListWorkspacesParameters SchemaUndefined (Some "a b")
                                                (Some (NumInt 0))))).
    reflexivity.
  - apply HN; reflexivity.
  - apply (HG "acme" None). reflexivity.
Defined.

Lemma falsy_pagination_dropped_witness :
  issued (snd (listWorkspaces validateAny sampleClient
                 (Some (mkListWorkspacesParameters SchemaUndefined (Some "")
                                                   (Some (NumInt 5))))
                 fresh))
  = [mkRequest ViaGet "/workspaces?limit=5"]
  /\ issued (snd (safeListWorkspaces safeValidateAny sampleClient
                    (Some (mkListWorkspacesParameters SchemaUndefined (Some "c1")
                                                      (Some (NumInt 0))))
                    fresh))
     = [mkRequest ViaSafeGet "/workspaces?cursor=c1"]
  /\ issued (snd (listWorkspaces validateAny sampleClient
                    (Some (mkListWorkspacesParameters SchemaUndefined (Some "")
                                                      (Some (NumInt 0))))
                    fresh))
     = [mkRequest ViaGet "/workspaces"].
Proof.
  destruct (falsy_pagination_dropped validateAny safeValidateAny sampleClient fresh)
    as (HC & HL & HB).
  split; [|split].
  - destruct (HC SchemaUndefined (Some (NumInt 5))) as [H _]. apply H. reflexivity.
  - destruct (HL SchemaUndefined (Some "c1")) as [_ H]. apply H. reflexivity.
  - destruct (HB (Some (mkListWorkspacesParameters SchemaUndefined (Some "")
                                                   (Some (NumInt 0)))))
      as (_ & _ & H & _); [right; reflexivity | right; reflexivity |].
    apply H. reflexivity.
Defined.

(** C9, as stated, fails: a response with an own key [__proto__], which
    is none of the declared keys, is accepted by the default schema, and
    the value that [getWorkspace] returns has lost that key. *)
Lemma default_schema_drops_proto_key :
  exists v,
    fst (getWorkspace validateAny sampleClient "polluted" None fresh) = Return v
    /\ ~ spec_keepsUnknownFields workspaceKeys polluted v.
Proof.
  eexists. split; [vm_compute; reflexivity|].
  intros (fields & fields' & Hr & Hv & H).
  injection Hr as <-. injection Hv as <-.
  assert (Hk : ~ In "__proto__" workspaceKeys).
  { cbn [workspaceKeys In]. intros Hin.
    repeat (destruct Hin as [Hin|Hin]; [discriminate|]). exact Hin. }
  specialize (H "__proto__" Hk). vm_compute in H. discriminate.
Qed.

Lemma default_schema_keeps_unknown_fields_witness :
  (exists v, fst (getWorkspace validateAny sampleClient "polluted" None fresh) = Return v
             /\ keepsOtherFields workspaceKeys polluted v)
  /\ (exists v, fst (listWorkspaces validateAny sampleClient None fresh) = Return v
                /\ keepsOtherListFields acmePage v).
Proof.
  split; eexists; (split; [vm_compute; reflexivity|]).
  - apply (proj1 (default_schema_keeps_unknown_fields
                    validateAny sampleClient fresh polluted _) "polluted" None);
      reflexivity.
  - apply (proj2 (default_schema_keeps_unknown_fields
                    validateAny sampleClient fresh acmePage _) None);
      reflexivity.
Defined.

Lemma teamSlug_not_encoded_witness :
  issued (snd (getWorkspace validateAny sampleClient "a/b" None fresh))
  = [mkRequest ViaGet "/workspaces/a/b"]
  /\ (exists path,
         issued (snd (safeGetWorkspace safeValidateAny sampleClient "x?y=1" None fresh))
         = [mkRequest ViaSafeGet path]
         /\ queryString path = Some "y=1" /\ singleSegmentPath path = false).
Proof.
  destruct (teamSlug_not_encoded validateAny safeValidateAny sampleClient fresh)
    as (HG & _ & _ & _ & _ & HQ & _).
  split.
  - apply (HG "a/b" None). reflexivity.
  - apply (HQ None). reflexivity.
Defined.


(* ===================================================================== *)
(** ** Further properties: the request URLs *)
(* ===================================================================== *)

Lemma forallChars_app (p : ascii -> bool) (a b : string) :
  forallChars p (a ++ b) = forallChars p a && forallChars p b.
Proof.
  induction a as [|c a IH]; cbn [append forallChars].
  - reflexivity.
  - rewrite IH. apply andb_assoc.
Qed.

Lemma forallChars_weaken (p q : ascii -> bool) (s : string) :
  (forall c, p c = true -> q c = true) ->
  forallChars p s = true -> forallChars q s = true.
Proof.
  intros Hpq. induction s as [|c s IH]; cbn [forallChars]; [reflexivity|].
  intros H. apply andb_true_iff in H. destruct H as [Hc Hs].
  rewrite (Hpq c Hc), (IH Hs). reflexivity.
Qed.

Lemma forallChars_contains (p : ascii -> bool) (c : ascii) (s : string) :
  forallChars p s = true -> p c = false -> contains c s = false.
Proof.
  intros Hs Hc. induction s as [|d s IH]; cbn [contains forallChars] in *.
  - reflexivity.
  - apply andb_true_iff in Hs. destruct Hs as [Hd Hs].
    rewrite (IH Hs), orb_false_r.
    destruct (Ascii.eqb_spec c d) as [->|_]; [congruence | reflexivity].
Qed.

Lemma encodeByte_encoded (c : ascii) :
  forallChars isEncodedChar (URLSearchParams.encodeByte c) = true.
Proof. destruct c as [[] [] [] [] [] [] [] []]; reflexivity. Qed.

Lemma encodeBytes_encoded (s : string) :
  forallChars isEncodedChar (URLSearchParams.encodeBytes s) = true.
Proof.
  induction s as [|c s IH]; cbn [URLSearchParams.encodeBytes]; [reflexivity|].
  rewrite forallChars_app, encodeByte_encoded, IH. reflexivity.
Qed.

Lemma urlencode_encoded (s : string) :
  forallChars isEncodedChar (URLSearchParams.urlencode s) = true.
Proof. apply encodeBytes_encoded. Qed.

Lemma isEncodedChar_isQueryChar (c : ascii) :
  isEncodedChar c = true -> isQueryChar c = true.
Proof. unfold isQueryChar. intros ->. reflexivity. Qed.

Lemma serializePair_query (p : string * string) :
  forallChars isQueryChar (URLSearchParams.serializePair p) = true.
Proof.
  unfold URLSearchParams.serializePair.
  rewrite !forallChars_app.
  rewrite !(forallChars_weaken _ _ _ isEncodedChar_isQueryChar (urlencode_encoded _)).
  reflexivity.
Qed.

Lemma toString_query (q : URLSearchParams.t) :
  forallChars isQueryChar (URLSearchParams.toString q) = true.
Proof.
  unfold URLSearchParams.toString.
  induction q as [|p q IH]; cbn [map String.concat]; [reflexivity|].
  destruct (map URLSearchParams.serializePair q) as [|x xs] eqn:E.
  - apply serializePair_query.
  - rewrite !forallChars_app, serializePair_query, IH. reflexivity.
Qed.

(** A string without a lone surrogate is a USVString already. *)
Lemma toUSVString_id (s : string) :
  hasLoneSurrogate s = false -> toUSVString s = s.
Proof.
  induction s as [|a tail IH]; [reflexivity|].
  destruct tail as [|b [|c rest]]; [reflexivity | reflexivity |].
  change (hasLoneSurrogate (String a (String b (String c rest))))
    with (if isSurrogateLead a b then true
          else hasLoneSurrogate (String b (String c rest))).
  change (toUSVString (String a (String b (String c rest))))
    with (if isSurrogateLead a b then replacementCharacter ++ toUSVString rest
          else String a (toUSVString (String b (String c rest)))).
  destruct (isSurrogateLead a b); [discriminate|].
  intros H. rewrite (IH H). reflexivity.
Qed.

Lemma plain_not_surrogateLead (a b : ascii) :
  URLSearchParams.isPlain a = true -> isSurrogateLead a b = false.
Proof.
  destruct a as [[] [] [] [] [] [] [] []]; intros H;
    try reflexivity; discriminate H.
Qed.

Lemma plain_no_lone_surrogate (s : string) :
  forallChars URLSearchParams.isPlain s = true -> hasLoneSurrogate s = false.
Proof.
  induction s as [|a tail IH]; [reflexivity|].
  intros H. pose proof H as Hall. cbn [forallChars] in H.
  apply andb_true_iff in H. destruct H as [Ha Htail].
  destruct tail as [|b [|c rest]]; [reflexivity | reflexivity |].
  change (hasLoneSurrogate (String a (String b (String c rest))))
    with (if isSurrogateLead a b then true
          else hasLoneSurrogate (String b (String c rest))).
  rewrite (plain_not_surrogateLead a b Ha). exact (IH Htail).
Qed.

Lemma encodeBytes_plain (s : string) :
  forallChars URLSearchParams.isPlain s = true -> URLSearchParams.encodeBytes s = s.
Proof.
  induction s as [|c s IH]; cbn [forallChars URLSearchParams.encodeBytes];
    [reflexivity|].
  intros H. apply andb_true_iff in H. destruct H as [Hc Hs].
  unfold URLSearchParams.encodeByte. rewrite Hc, (IH Hs). reflexivity.
Qed.

(** Plain bytes are sent as they are. *)
Lemma urlencode_plain (s : string) :
  forallChars URLSearchParams.isPlain s = true -> URLSearchParams.urlencode s = s.
Proof.
  intros H. unfold URLSearchParams.urlencode.
  rewrite (toUSVString_id _ (plain_no_lone_surrogate _ H)).
  exact (encodeBytes_plain _ H).
Qed.

Lemma digits_plain (d : Decimal.uint) :
  forallChars URLSearchParams.isPlain (NilEmpty.string_of_uint d) = true.
Proof.
  induction d; cbn [NilEmpty.string_of_uint forallChars]; try rewrite IHd;
    reflexivity.
Qed.

Lemma string_of_uint_plain (d : Decimal.uint) :
  forallChars URLSearchParams.isPlain (NilZero.string_of_uint d) = true.
Proof.
  unfold NilZero.string_of_uint. destruct d; try apply digits_plain. reflexivity.
Qed.

Lemma integer_toString_plain (z : Z) :
  forallChars URLSearchParams.isPlain (number_toString (NumInt z)) = true.
Proof.
  unfold number_toString, NilZero.string_of_int.
  destruct (Z.to_int z) as [d|d]; cbn [forallChars];
    rewrite ?string_of_uint_plain; reflexivity.
Qed.

(** X3. Nothing from a cursor or a limit escapes its place in the query.
    An encoded name or value is made of letters, digits, [*-._], [+] and
    [%] only, so it holds no [&], [=], [?], [#], [/] or space. The URL of
    [listWorkspaces] is ["/workspaces"], alone or followed by [?] and a
    query that holds no further [?], no [#] and no [/]. *)
Theorem query_values_cannot_escape :
  (forall (value : string) (c : ascii),
      isEncodedChar c = false ->
      contains c (URLSearchParams.urlencode value) = false)
  /\ (forall parameters,
         listWorkspacesUrl parameters = "/workspaces"
         \/ exists q,
             listWorkspacesUrl parameters = "/workspaces?" ++ q
             /\ string_truthy q = true
             /\ forallChars isQueryChar q = true
             /\ contains "?" q = false
             /\ contains "#" q = false
             /\ contains "/" q = false
             /\ contains " " q = false).
Proof.
  split.
  - intros value c Hc. exact (forallChars_contains _ _ _ (urlencode_encoded value) Hc).
  - intros parameters. unfold listWorkspacesUrl.
    set (q := URLSearchParams.toString _).
    destruct (string_truthy q) eqn:Hq; [right | left; reflexivity].
    exists q. split; [reflexivity|]. split; [exact Hq|].
    pose proof (toString_query
                  (appendLimit parameters
                     (appendCursor parameters URLSearchParams.new))) as Hall.
    fold q in Hall.
    split; [exact Hall|].
    repeat split; apply (forallChars_contains _ _ _ Hall); reflexivity.
Qed.

(** X4. The shape of the list URL. With a non-empty cursor and a limit
    that is a safe integer other than 0, the URL is
    [/workspaces?cursor=<encoded cursor>&limit=<limit in decimal>], the
    cursor first; with one of the two only, the query holds that one. No
    bound is put on the limit: a negative one is sent with its sign. A
    cursor of plain bytes is sent as it is. A limit that is no safe
    integer is sent as [toString] renders it, encoded: [1e21] as
    [limit=1e%2B21]. *)
Theorem listWorkspaces_url_shape (sch : SchemaOption) (c : string) (z : Z) :
  c <> "" -> z <> 0%Z -> isSafeInteger z = true ->
  listWorkspacesUrl
    (Some (mkListWorkspacesParameters sch (Some c) (Some (NumInt z))))
  = "/workspaces?cursor=" ++ URLSearchParams.urlencode c
    ++ "&limit=" ++ NilZero.string_of_int (Z.to_int z)
  /\ listWorkspacesUrl (Some (mkListWorkspacesParameters sch (Some c) None))
     = "/workspaces?cursor=" ++ URLSearchParams.urlencode c
  /\ listWorkspacesUrl (Some (mkListWorkspacesParameters sch None (Some (NumInt z))))
     = "/workspaces?limit=" ++ NilZero.string_of_int (Z.to_int z)
  /\ (forallChars URLSearchParams.isPlain c = true ->
      listWorkspacesUrl (Some (mkListWorkspacesParameters sch (Some c) None))
      = "/workspaces?cursor=" ++ c)
  /\ (forall rendering,
         listWorkspacesUrl
           (Some (mkListWorkspacesParameters sch None (Some (NumOther rendering))))
         = "/workspaces?limit=" ++ URLSearchParams.urlencode rendering)
  /\ listWorkspacesUrl
       (Some (mkListWorkspacesParameters sch None (Some (NumOther "1e+21"))))
     = "/workspaces?limit=1e%2B21".
Proof.
  intros Hc Hz _.
  assert (Ht : string_truthy c = true) by (destruct c; [congruence | reflexivity]).
  assert (Hn : number_truthy (NumInt z) = true).
  { cbn. apply negb_true_iff. apply Z.eqb_neq. exact Hz. }
  assert (Hd : URLSearchParams.urlencode (number_toString (NumInt z))
               = NilZero.string_of_int (Z.to_int z)).
  { apply (urlencode_plain _ (integer_toString_plain z)). }
  assert (Hu : forall p, listWorkspacesUrl p
                         = workspacesUrl (queryPairs string_truthy number_truthy p)).
  { exact listWorkspacesUrl_truthy. }
  rewrite !Hu. unfold queryPairs.
  cbn [parameters_cursor parameters_limit cursor limit].
  rewrite Ht, Hn.
  cbn [app workspacesUrl URLSearchParams.toString map String.concat
           URLSearchParams.serializePair fst snd].
  unfold URLSearchParams.serializePair. cbn [fst snd].
  rewrite Hd.
  change (URLSearchParams.urlencode "cursor") with "cursor".
  change (URLSearchParams.urlencode "limit") with "limit".
  cbn [append].
  repeat split.
  intros Hp. rewrite (urlencode_plain _ Hp). reflexivity.
Qed.

(** The three ways a byte is encoded. *)
Lemma encodeByte_cases (c : ascii) :
  (URLSearchParams.isPlain c = true
   /\ URLSearchParams.encodeByte c = String c EmptyString)
  \/ (c = " "%char /\ URLSearchParams.encodeByte c = "+")
  \/ (URLSearchParams.isPlain c = false
      /\ URLSearchParams.encodeByte c = URLSearchParams.percentEncode c).
Proof.
  unfold URLSearchParams.encodeByte.
  destruct (URLSearchParams.isPlain c) eqn:Hp; [left; split; reflexivity|].
  destruct (Ascii.eqb_spec c " ") as [->|_]; [right; left; split; reflexivity|].
  right; right; split; reflexivity.
Qed.

Lemma hexDigit_inj (a b : nat) :
  (a < 16)%nat -> (b < 16)%nat ->
  URLSearchParams.hexDigit a = URLSearchParams.hexDigit b -> a = b.
Proof.
  intros Ha Hb.
  do 16 (destruct a as [|a]; [do 16 (destruct b as [|b];
                                     [vm_compute; congruence|]); lia|]).
  lia.
Qed.

Lemma percentEncode_inj (c d : ascii) :
  URLSearchParams.percentEncode c = URLSearchParams.percentEncode d -> c = d.
Proof.
  unfold URLSearchParams.percentEncode.
  pose proof (nat_ascii_bounded c) as Bc. pose proof (nat_ascii_bounded d) as Bd.
  set (n := nat_of_ascii c) in *. set (m := nat_of_ascii d) in *. intros H.
  assert (Hhi : URLSearchParams.hexDigit (n / 16) = URLSearchParams.hexDigit (m / 16))
    by congruence.
  assert (Hlo : URLSearchParams.hexDigit (n mod 16)
                = URLSearchParams.hexDigit (m mod 16)) by congruence.
  apply hexDigit_inj in Hhi;
    [|apply Nat.Div0.div_lt_upper_bound; lia|apply Nat.Div0.div_lt_upper_bound; lia].
  apply hexDigit_inj in Hlo;
    [|apply Nat.mod_upper_bound; lia|apply Nat.mod_upper_bound; lia].
  assert (E : n = m).
  { rewrite (Nat.div_mod_eq n 16), (Nat.div_mod_eq m 16), Hhi, Hlo. reflexivity. }
  subst n m.
  rewrite <- (ascii_nat_embedding c), <- (ascii_nat_embedding d), E. reflexivity.
Qed.

Lemma percentEncode_app_inj (c d : ascii) (r1 r2 : string) :
  URLSearchParams.percentEncode c ++ r1 = URLSearchParams.percentEncode d ++ r2 ->
  c = d /\ r1 = r2.
Proof.
  intros H. split.
  - apply percentEncode_inj. revert H. unfold URLSearchParams.percentEncode.
    cbn [append]. congruence.
  - revert H. unfold URLSearchParams.percentEncode. cbn [append]. congruence.
Qed.

Lemma percentEncode_head (c : ascii) (r : string) :
  exists rest, URLSearchParams.percentEncode c ++ r = String "%" rest.
Proof. unfold URLSearchParams.percentEncode. cbn [append]. eexists. reflexivity. Qed.

Lemma encodeBytes_injective (a b : string) :
  URLSearchParams.encodeBytes a = URLSearchParams.encodeBytes b -> a = b.
Proof.
  revert b. induction a as [|c a IH]; intros [|d b];
    cbn [URLSearchParams.encodeBytes].
  - reflexivity.
  - intros H. exfalso.
    destruct (encodeByte_cases d) as [[_ E]|[[_ E]|[_ E]]]; rewrite E in H;
      discriminate.
  - intros H. exfalso.
    destruct (encodeByte_cases c) as [[_ E]|[[_ E]|[_ E]]]; rewrite E in H;
      discriminate.
  - intros H.
    destruct (encodeByte_cases c) as [[Pc Ec]|[[Sc Ec]|[Pc Ec]]];
      destruct (encodeByte_cases d) as [[Pd Ed]|[[Sd Ed]|[Pd Ed]]];
      rewrite Ec, Ed in H.
    + cbn [append] in H. injection H as -> H. f_equal. apply IH. exact H.
    + cbn [append] in H. injection H as -> H. discriminate Pc.
    + destruct (percentEncode_head d (URLSearchParams.encodeBytes b)) as [rest Hr].
      rewrite Hr in H. cbn [append] in H. injection H as -> H. discriminate Pc.
    + cbn [append] in H. injection H as <- H. discriminate Pd.
    + cbn [append] in H. injection H as H. subst. f_equal. apply IH. exact H.
    + destruct (percentEncode_head d (URLSearchParams.encodeBytes b)) as [rest Hr].
      rewrite Hr in H. discriminate.
    + destruct (percentEncode_head c (URLSearchParams.encodeBytes a)) as [rest Hr].
      rewrite Hr in H. cbn [append] in H. injection H as <- H. discriminate Pd.
    + destruct (percentEncode_head c (URLSearchParams.encodeBytes a)) as [rest Hr].
      rewrite Hr in H. discriminate.
    + apply percentEncode_app_inj in H. destruct H as [-> H].
      f_equal. apply IH. exact H.
Qed.

(** X10. The encoding of a name or value loses nothing but lone
    surrogates. Two different strings without a lone surrogate have
    different encodings, so two such cursors are never sent as the same
    query value. The lone surrogate U+D800 is sent as U+FFFD is, as
    [%EF%BF%BD]. *)
Theorem urlencode_injective (a b : string) :
  (hasLoneSurrogate a = false -> hasLoneSurrogate b = false -> a <> b ->
   URLSearchParams.urlencode a <> URLSearchParams.urlencode b)
  /\ (loneSurrogate <> replacementCharacter
      /\ URLSearchParams.urlencode loneSurrogate = "%EF%BF%BD"
      /\ URLSearchParams.urlencode replacementCharacter = "%EF%BF%BD").
Proof.
  split.
  - intros Ha Hb Hne H. apply Hne. unfold URLSearchParams.urlencode in H.
    rewrite (toUSVString_id a Ha), (toUSVString_id b Hb) in H.
    exact (encodeBytes_injective a b H).
  - split; [discriminate|]. split; reflexivity.
Qed.

(* ===================================================================== *)
(** ** Further properties: the default schemas *)
(* ===================================================================== *)

Lemma ListWorkspacesSchema_samePage (path : list PathKey) (r v : json) :
  Zod._parse ListWorkspacesSchema path (Some r) = Zod.OK v -> samePage r v.
Proof.
  intros H. apply ListWorkspacesSchema_OK in H.
  destruct H as (_ & fields & fields' & items & items' & pagination & pagination'
                 & -> & -> & Hd & Hd' & Hall & Hp & Hp' & (p & Hpage)).
  exists fields, fields', items, items', pagination, pagination'.
  repeat split; try assumption.
  - eapply Forall2_impl; [|exact Hall]. cbn beta. intros a b [q E].
    exact (WorkspaceResponseSchema_sameValues _ _ _ E).
  - exact (PaginationMetadataSchema_sameValues _ _ _ Hpage).
Qed.

Lemma safeParse_OK (t : Zod.ZodType) (r v : json) :
  Zod.safeParse t r = Return (Success v) <-> Zod._parse t [] (Some r) = Zod.OK v.
Proof.
  unfold Zod.safeParse.
  destruct (Zod._parse t [] (Some r)); split; intros H; congruence.
Qed.

(** X7. Default validation of a workspace changes no value. When
    [WorkspaceResponseSchema] accepts a response, the validated value has,
    at every key other than [__proto__], declared or not, the value the
    response has there (or nothing, where the response has nothing), and
    it has no own key [__proto__]. *)
Theorem validated_workspace_same_values (r v : json) :
  Zod.safeParse WorkspaceResponseSchema r = Return (Success v) ->
  exists fields fields',
    r = JObj fields /\ v = JObj fields'
    /\ (forall k, k <> "__proto__" -> getField k fields' = getField k fields)
    /\ getField "__proto__" fields' = None.
Proof.
  intros H. apply safeParse_OK in H.
  destruct (WorkspaceResponseSchema_sameValues _ _ _ H)
    as (fields & fields' & -> & -> & Hsame & Hnone).
  exists fields, fields'. repeat split; try assumption.
  intros k Hk. apply Hsame; [intros [] | exact Hk].
Qed.

(** X8. Default validation is idempotent. A value returned by
    [WorkspaceResponseSchema], by [PaginationMetadataSchema] or by
    [ListWorkspacesSchema] is accepted by the same schema and returned
    unchanged, so validating an already validated workspace or page again
    is harmless. *)
Theorem default_validation_idempotent (r v : json) :
  (Zod.safeParse WorkspaceResponseSchema r = Return (Success v) ->
   Zod.safeParse WorkspaceResponseSchema v = Return (Success v))
  /\ (Zod.safeParse PaginationMetadataSchema r = Return (Success v) ->
      Zod.safeParse PaginationMetadataSchema v = Return (Success v))
  /\ (Zod.safeParse ListWorkspacesSchema r = Return (Success v) ->
      Zod.safeParse ListWorkspacesSchema v = Return (Success v)).
Proof.
  destruct default_schemas_structural as (HW & HP & HL).
  split; [|split]; intros H; apply safeParse_OK in H; apply safeParse_OK.
  - exact (structural_reparse _ HW _ _ _ H []).
  - exact (structural_reparse _ HP _ _ _ H []).
  - exact (structural_reparse _ HL _ _ _ H []).
Qed.

(** X9. The workspaces of a validated page are validated workspaces. When
    [ListWorkspacesSchema] accepts a response, the validated value has a
    [data] array, and [WorkspaceResponseSchema], the schema of
    [getWorkspace], accepts each of its items and returns it unchanged. *)
Theorem validated_page_holds_validated_workspaces (r v : json) :
  Zod.safeParse ListWorkspacesSchema r = Return (Success v) ->
  exists fields' items',
    v = JObj fields'
    /\ getField "data" fields' = Some (JArr items')
    /\ Forall (fun w => Zod.safeParse WorkspaceResponseSchema w = Return (Success w))
              items'.
Proof.
  intros H. apply safeParse_OK in H. apply ListWorkspacesSchema_OK in H.
  destruct H as (_ & fields & fields' & items & items' & pagination & pagination'
                 & _ & -> & _ & Hd' & Hall & _).
  exists fields', items'. split; [reflexivity|]. split; [exact Hd'|].
  destruct default_schemas_structural as (HW & _).
  clear Hd'.
  induction Hall as [|a b items items' [p E] _ IH]; constructor; [|exact IH].
  apply safeParse_OK. exact (structural_reparse _ HW _ _ _ E []).
Qed.

(** X12. A response that is not an object is refused at the root. For a
    response that is null, a boolean, a number, a string or an array, the
    two default schemas fail with the single issue "expected object" at the
    empty path, naming the type received. *)
Theorem non_object_response_rejected (r : json) :
  (forall fields, r <> JObj fields) ->
  Zod.safeParse WorkspaceResponseSchema r
  = Return (Failure (ZodError [InvalidType "object" (Zod.getParsedType (Some r)) []]))
  /\ Zod.safeParse ListWorkspacesSchema r
     = Return (Failure (ZodError [InvalidType "object" (Zod.getParsedType (Some r)) []])).
Proof.
  intros H. destruct r as [| |n|s|items|fields];
    try (split; reflexivity).
  exfalso. exact (H fields eq_refl).
Qed.

(** X13. A failure of a default schema names at least one issue. When
    [WorkspaceResponseSchema] or [ListWorkspacesSchema] refuses a response,
    the error is a [ZodError] whose list of issues is not empty, so
    [result.error.issues] of the safe variants always has something to
    show. *)
Theorem default_schema_failure_has_issues (r : json) (e : JsError) :
  (Zod.safeParse WorkspaceResponseSchema r = Return (Failure e) ->
   exists issue issues, e = ZodError (issue :: issues))
  /\ (Zod.safeParse ListWorkspacesSchema r = Return (Failure e) ->
      exists issue issues, e = ZodError (issue :: issues)).
Proof.
  destruct default_schemas_structural as (HW & _ & HL).
  unfold Zod.safeParse. split.
  - destruct (Zod._parse WorkspaceResponseSchema [] (Some r)) as [v|issues|e0] eqn:E;
      try discriminate.
    intros H. injection H as <-.
    apply (structural_issues _ HW) in E.
    destruct issues as [|issue issues]; [contradiction|]. eauto.
  - destruct (Zod._parse ListWorkspacesSchema [] (Some r)) as [v|issues|e0] eqn:E;
      try discriminate.
    intros H. injection H as <-.
    apply (structural_issues _ HL) in E.
    destruct issues as [|issue issues]; [contradiction|]. eauto.
Qed.

(* ===================================================================== *)
(** ** Further properties: the actions *)
(* ===================================================================== *)

Section MoreProperties.

Context {W : Type}.
Variable validateActionParameters :
  forall (P : Type), ActionParameters P -> option P -> Completion unit.
Variable safeValidateActionParameters :
  forall (P : Type), ActionParameters P -> option P -> option (SafeResult json).

(** X1. Schema override in the safe variants. Once the parameters are
    accepted and [safeGet] has answered [{ success: true, data }]: with
    [schema: false] the safe variant returns that data in a success, not
    validated; with a custom schema [S] it returns [S.safeParse(data)];
    with no schema it returns the [safeParse] of the default schema. *)
Theorem safe_schema_override (client : Client W) (s : Session W) (data : json) :
  (forall parameters,
      safeValidateActionParameters _ _ parameters = None ->
      fst (safeGet client (listWorkspacesUrl parameters) (world s)) = Success data ->
      (parameters_schema parameters = SchemaFalse ->
       fst (safeListWorkspaces safeValidateActionParameters client parameters s)
       = Return (Success data))
      /\ (forall S, parameters_schema parameters = SchemaZod S ->
                    fst (safeListWorkspaces safeValidateActionParameters
                                            client parameters s)
                    = Zod.safeParse S data)
      /\ (parameters_schema parameters = SchemaUndefined ->
          fst (safeListWorkspaces safeValidateActionParameters client parameters s)
          = Zod.safeParse ListWorkspacesSchema data))
  /\
  (forall teamSlug parameters,
      safeValidateActionParameters _ _ parameters = None ->
      fst (safeGet client (getWorkspaceUrl teamSlug) (world s)) = Success data ->
      (parameters_schema parameters = SchemaFalse ->
       fst (safeGetWorkspace safeValidateActionParameters client teamSlug parameters s)
       = Return (Success data))
      /\ (forall S, parameters_schema parameters = SchemaZod S ->
                    fst (safeGetWorkspace safeValidateActionParameters
                                          client teamSlug parameters s)
                    = Zod.safeParse S data)
      /\ (parameters_schema parameters = SchemaUndefined ->
          fst (safeGetWorkspace safeValidateActionParameters
                                client teamSlug parameters s)
          = Zod.safeParse WorkspaceResponseSchema data)).
Proof.
  split.
  - intros parameters Hv Hd. rewrite safeListWorkspaces_run, Hv. cbn [fst].
    rewrite Hd. repeat split; intros; subst;
      match goal with H : parameters_schema _ = _ |- _ => rewrite H end;
      reflexivity.
  - intros teamSlug parameters Hv Hd. rewrite safeGetWorkspace_run, Hv. cbn [fst].
    rewrite Hd. repeat split; intros; subst;
      match goal with H : parameters_schema _ = _ |- _ => rewrite H end;
      reflexivity.
Qed.

(** X2. An error of the request passes through the throwing variants as
    it is. When [client.get] throws [e], [listWorkspaces] and
    [getWorkspace] throw [e] itself, whatever the schema option: with
    [schema: false], a custom schema or the default one, no schema is
    consulted and the error is not wrapped. *)
Theorem request_error_passes_through (client : Client W) (s : Session W)
        (e : JsError) :
  (forall parameters,
      validateActionParameters _ _ parameters = Return tt ->
      fst (get client (listWorkspacesUrl parameters) (world s)) = Throw e ->
      fst (listWorkspaces validateActionParameters client parameters s) = Throw e)
  /\ (forall teamSlug parameters,
         validateActionParameters _ _ parameters = Return tt ->
         fst (get client (getWorkspaceUrl teamSlug) (world s)) = Throw e ->
         fst (getWorkspace validateActionParameters client teamSlug parameters s)
         = Throw e).
Proof.
  split.
  - intros parameters Hv He. rewrite listWorkspaces_run, Hv. cbn [fst].
    rewrite He. reflexivity.
  - intros teamSlug parameters Hv He. rewrite getWorkspace_run, Hv. cbn [fst].
    rewrite He. reflexivity.
Qed.

(** X5. [getWorkspace] with the default schema. With no schema passed,
    accepted parameters and the response [r]: if [r] is an object whose
    id, name, tier, role and created_at are strings and whose slug is a
    string or null, [getWorkspace] returns an object that has at every key
    other than [__proto__] the value [r] has there, and
    [safeGetWorkspace] returns such an object in a success; otherwise, and
    so when slug is missing, [getWorkspace] throws a [ZodError] with at
    least one issue and [safeGetWorkspace] returns one in a failure. *)
Theorem getWorkspace_default_schema_outcome
        (client : Client W) (s : Session W) (teamSlug : string)
        (parameters : option GetWorkspaceParameters) (r : json) :
  parameters_schema parameters = SchemaUndefined ->
  (validateActionParameters _ _ parameters = Return tt ->
   fst (get client (getWorkspaceUrl teamSlug) (world s)) = Return r ->
   (validWorkspace r = true ->
    exists v,
      fst (getWorkspace validateActionParameters client teamSlug parameters s)
      = Return v
      /\ sameValues r v)
   /\ (validWorkspace r = false ->
       exists issue issues,
         fst (getWorkspace validateActionParameters client teamSlug parameters s)
         = Throw (ZodError (issue :: issues))))
  /\ (safeValidateActionParameters _ _ parameters = None ->
      fst (safeGet client (getWorkspaceUrl teamSlug) (world s)) = Success r ->
      (validWorkspace r = true ->
       exists v,
         fst (safeGetWorkspace safeValidateActionParameters client teamSlug
                               parameters s)
         = Return (Success v)
         /\ sameValues r v)
      /\ (validWorkspace r = false ->
          exists issue issues,
            fst (safeGetWorkspace safeValidateActionParameters
                                  client teamSlug parameters s)
            = Return (Failure (ZodError (issue :: issues))))).
Proof.
  intros Hs.
  destruct default_schemas_structural as (HW & _).
  pose proof (structural_safeParse WorkspaceResponseSchema r HW) as [Hok Hbad].
  rewrite WorkspaceResponseSchema_isOK in Hok, Hbad.
  split.
  - intros Hv Hr. rewrite getWorkspace_run, Hv. cbn [fst]. rewrite Hr, Hs.
    cbn [validated isFalse orElse]. unfold Zod.parse. split; intros H.
    + destruct (Hok H) as (v & Hparse & E). exists v. rewrite E.
      split; [reflexivity | exact (WorkspaceResponseSchema_sameValues _ _ _ Hparse)].
    + destruct (Hbad H) as (issue & issues & E).
      exists issue, issues. rewrite E. reflexivity.
  - intros Hv Hr. rewrite safeGetWorkspace_run, Hv. cbn [fst]. rewrite Hr, Hs.
    cbn [safeValidated isFalse orElse]. split; intros H.
    + destruct (Hok H) as (v & Hparse & E). exists v. rewrite E.
      split; [reflexivity | exact (WorkspaceResponseSchema_sameValues _ _ _ Hparse)].
    + destruct (Hbad H) as (issue & issues & E).
      exists issue, issues. rewrite E. reflexivity.
Qed.

(** X6. [listWorkspaces] with the default schema. With no schema passed,
    accepted parameters and the response [r]: if [r] is an object whose
    data is an array of valid workspaces (an empty array is one) and whose
    pagination is an object with a boolean has_more, a string or null
    next_cursor and a number or null total, then [listWorkspaces] returns
    a page that keeps the other fields of [r] and in which every
    workspace of data and the pagination object have, at every key other
    than [__proto__], the values they have in [r]; otherwise, and so when
    one workspace of the page is invalid, [listWorkspaces] throws a
    [ZodError] with at least one issue. [safeListWorkspaces] returns the
    same in a success or a failure. *)
Theorem listWorkspaces_default_schema_outcome
        (client : Client W) (s : Session W)
        (parameters : option ListWorkspacesParameters) (r : json) :
  parameters_schema parameters = SchemaUndefined ->
  (validateActionParameters _ _ parameters = Return tt ->
   fst (get client (listWorkspacesUrl parameters) (world s)) = Return r ->
   (validListWorkspaces r = true ->
    exists v,
      fst (listWorkspaces validateActionParameters client parameters s) = Return v
      /\ keepsOtherFields listWorkspacesKeys r v
      /\ samePage r v)
   /\ (validListWorkspaces r = false ->
       exists issue issues,
         fst (listWorkspaces validateActionParameters client parameters s)
         = Throw (ZodError (issue :: issues))))
  /\ (safeValidateActionParameters _ _ parameters = None ->
      fst (safeGet client (listWorkspacesUrl parameters) (world s)) = Success r ->
      (validListWorkspaces r = true ->
       exists v,
         fst (safeListWorkspaces safeValidateActionParameters client parameters s)
         = Return (Success v)
         /\ keepsOtherFields listWorkspacesKeys r v
         /\ samePage r v)
      /\ (validListWorkspaces r = false ->
          exists issue issues,
            fst (safeListWorkspaces safeValidateActionParameters client parameters s)
            = Return (Failure (ZodError (issue :: issues))))).
Proof.
  intros Hs.
  destruct default_schemas_structural as (_ & _ & HL).
  pose proof (structural_safeParse ListWorkspacesSchema r HL) as [Hok Hbad].
  rewrite ListWorkspacesSchema_isOK in Hok, Hbad.
  split.
  - intros Hv Hr. rewrite listWorkspaces_run, Hv. cbn [fst]. rewrite Hr, Hs.
    cbn [validated isFalse orElse]. unfold Zod.parse. split; intros H.
    + destruct (Hok H) as (v & Hparse & E). exists v. rewrite E.
      split; [reflexivity|]. split.
      * exact (passthrough_keepsOtherFields _ _ _ _ Hparse).
      * exact (ListWorkspacesSchema_samePage _ _ _ Hparse).
    + destruct (Hbad H) as (issue & issues & E).
      exists issue, issues. rewrite E. reflexivity.
  - intros Hv Hr. rewrite safeListWorkspaces_run, Hv. cbn [fst]. rewrite Hr, Hs.
    cbn [safeValidated isFalse orElse]. split; intros H.
    + destruct (Hok H) as (v & Hparse & E). exists v. rewrite E.
      split; [reflexivity|]. split.
      * exact (passthrough_keepsOtherFields _ _ _ _ Hparse).
      * exact (ListWorkspacesSchema_samePage _ _ _ Hparse).
    + destruct (Hbad H) as (issue & issues & E).
      exists issue, issues. rewrite E. reflexivity.
Qed.

End MoreProperties.

(* ===================================================================== *)
(** ** The further properties at concrete inputs *)
(* ===================================================================== *)

(** The default schemas on the sample responses: the order of the
    properties of the validated values, and the key [__proto__] dropped. *)
Example default_schemas_on_samples :
  Zod.safeParse WorkspaceResponseSchema acme = Return (Success acmeValidated)
  /\ Zod.safeParse WorkspaceResponseSchema polluted
     = Return (Success pollutedValidated)
  /\ Zod.safeParse ListWorkspacesSchema acmePage
     = Return (Success acmePageValidated).
Proof. repeat split. Qed.

Lemma safe_schema_override_witness :
  fst (safeListWorkspaces safeValidateAny sampleClient
         (Some (mkListWorkspacesParameters SchemaFalse None None)) fresh)
  = Return (Success acmePage)
  /\ fst (safeGetWorkspace safeValidateAny sampleClient "acme"
            (Some (mkGetWorkspaceParameters (SchemaZod idOnly))) fresh)
     = Zod.safeParse idOnly acme
  /\ fst (safeGetWorkspace safeValidateAny sampleClient "acme" None fresh)
     = Zod.safeParse WorkspaceResponseSchema acme.
Proof.
  destruct (safe_schema_override safeValidateAny sampleClient fresh acmePage)
    as [HL _].
  destruct (safe_schema_override safeValidateAny sampleClient fresh acme)
    as [_ HG].
  split; [|split].
  - apply (HL (Some (mkListWorkspacesParameters SchemaFalse None None)));
      reflexivity.
  - apply (HG "acme" (Some (mkGetWorkspaceParameters (SchemaZod idOnly))));
      reflexivity.
  - apply (HG "acme" None); reflexivity.
Defined.

Lemma request_error_passes_through_witness :
  fst (getWorkspace validateAny sampleClient "nobody"
         (Some (mkGetWorkspaceParameters SchemaFalse)) fresh)
  = Throw (RequestError 404 "Not Found")
  /\ fst (listWorkspaces validateAny sampleClient
            (Some (mkListWorkspacesParameters (SchemaZod idOnly) None None))
            (mkSession 3%nat []))
     = Throw (RequestError 429 "Too Many Requests").
Proof.
  split.
  - apply (proj2 (request_error_passes_through validateAny sampleClient fresh
                    (RequestError 404 "Not Found")));
      reflexivity.
  - apply (proj1 (request_error_passes_through validateAny sampleClient
                    (mkSession 3%nat []) (RequestError 429 "Too Many Requests")));
      reflexivity.
Defined.

Lemma query_values_cannot_escape_witness :
  contains "&" (URLSearchParams.urlencode "a&limit=1#x") = false.
Proof.
  apply (proj1 query_values_cannot_escape). reflexivity.
Defined.

Lemma listWorkspaces_url_shape_witness :
  listWorkspacesUrl
    (Some (mkListWorkspacesParameters SchemaUndefined (Some "next-page-cursor")
                                      (Some (NumInt 20))))
  = "/workspaces?cursor=next-page-cursor&limit=20"
  /\ listWorkspacesUrl
       (Some (mkListWorkspacesParameters SchemaUndefined None (Some (NumInt (-5)))))
     = "/workspaces?limit=-5"
  /\ listWorkspacesUrl
       (Some (mkListWorkspacesParameters SchemaUndefined None
                                         (Some (NumOther "0.5"))))
     = "/workspaces?limit=0.5".
Proof.
  split; [|split].
  - apply (listWorkspaces_url_shape SchemaUndefined "next-page-cursor" 20);
      [discriminate | lia | reflexivity].
  - apply (listWorkspaces_url_shape SchemaUndefined "c" (-5));
      [discriminate | lia | reflexivity].
  - destruct (listWorkspaces_url_shape SchemaUndefined "c" 1)
      as (_ & _ & _ & _ & H & _); [discriminate | lia | reflexivity |].
    apply (H "0.5").
Defined.

Lemma urlencode_injective_witness :
  URLSearchParams.urlencode "a b" <> URLSearchParams.urlencode "a+b".
Proof.
  apply (proj1 (urlencode_injective "a b" "a+b"));
    [reflexivity | reflexivity | discriminate].
Defined.

Lemma getWorkspace_default_schema_outcome_witness :
  (exists v, fst (getWorkspace validateAny sampleClient "acme" None fresh) = Return v
             /\ sameValues acme v)
  /\ (exists issue issues,
         fst (safeGetWorkspace safeValidateAny sampleClient "broken" None fresh)
         = Return (Failure (ZodError (issue :: issues)))).
Proof.
  split.
  - apply (proj1 (getWorkspace_default_schema_outcome
                    validateAny safeValidateAny sampleClient fresh "acme" None acme
                    eq_refl)); reflexivity.
  - apply (proj2 (getWorkspace_default_schema_outcome
                    validateAny safeValidateAny sampleClient fresh "broken" None
                    (JObj [("id", JNum (NumInt 3))]) eq_refl)); reflexivity.
Defined.

Lemma listWorkspaces_default_schema_outcome_witness :
  (exists v, fst (listWorkspaces validateAny sampleClient None fresh) = Return v
             /\ keepsOtherFields listWorkspacesKeys acmePage v
             /\ samePage acmePage v)
  /\ (exists v, fst (safeListWorkspaces safeValidateAny sampleClient None fresh)
                = Return (Success v)
                /\ keepsOtherFields listWorkspacesKeys acmePage v
                /\ samePage acmePage v).
Proof.
  split.
  - apply (proj1 (listWorkspaces_default_schema_outcome
                    validateAny safeValidateAny sampleClient fresh None acmePage
                    eq_refl)); reflexivity.
  - apply (proj2 (listWorkspaces_default_schema_outcome
                    validateAny safeValidateAny sampleClient fresh None acmePage
                    eq_refl)); reflexivity.
Defined.

Lemma validated_workspace_same_values_witness :
  exists fields fields',
    polluted = JObj fields /\ pollutedValidated = JObj fields'
    /\ (forall k, k <> "__proto__" -> getField k fields' = getField k fields)
    /\ getField "__proto__" fields' = None.
Proof.
  apply (validated_workspace_same_values polluted pollutedValidated).
  reflexivity.
Defined.

Lemma default_validation_idempotent_witness :
  Zod.safeParse WorkspaceResponseSchema pollutedValidated
  = Return (Success pollutedValidated)
  /\ Zod.safeParse ListWorkspacesSchema acmePageValidated
     = Return (Success acmePageValidated).
Proof.
  split.
  - apply (proj1 (default_validation_idempotent polluted pollutedValidated)).
    reflexivity.
  - apply (proj2 (proj2 (default_validation_idempotent acmePage acmePageValidated))).
    reflexivity.
Defined.

Lemma validated_page_holds_validated_workspaces_witness :
  exists fields' items',
    acmePageValidated = JObj fields'
    /\ getField "data" fields' = Some (JArr items')
    /\ Forall (fun w => Zod.safeParse WorkspaceResponseSchema w = Return (Success w))
              items'.
Proof.
  apply (validated_page_holds_validated_workspaces acmePage acmePageValidated).
  reflexivity.
Defined.

Lemma non_object_response_rejected_witness :
  Zod.safeParse WorkspaceResponseSchema JNull
  = Return (Failure (ZodError [InvalidType "object" "null" []]))
  /\ Zod.safeParse ListWorkspacesSchema (JArr [acme])
     = Return (Failure (ZodError [InvalidType "object" "array" []])).
Proof.
  split.
  - destruct (non_object_response_rejected JNull) as [H _];
      [intros fields E; discriminate E | exact H].
  - destruct (non_object_response_rejected (JArr [acme])) as [_ H];
      [intros fields E; discriminate E | exact H].
Defined.

Lemma default_schema_failure_has_issues_witness :
  exists issue issues,
    ZodError [InvalidType "string" "number" [Key "id"];
              InvalidType "string" "undefined" [Key "name"];
              InvalidType "string" "undefined" [Key "slug"];
              InvalidType "string" "undefined" [Key "tier"];
              InvalidType "string" "undefined" [Key "role"];
              InvalidType "string" "undefined" [Key "created_at"]]
    = ZodError (issue :: issues).
Proof.
  apply (proj1 (default_schema_failure_has_issues
                  (JObj [("id", JNum (NumInt 3))]) _)).
  reflexivity.
Defined.
